(** * nanospline: rational curves (NURBS.h) and surfaces of revolution
      (RevolutionPatch.h)

    A shallow embedding of the two headers.  [Scalar] is read as the field of
    real numbers: every statement below is about the arithmetic the code
    writes down, evaluated exactly (no rounding).  C++ exceptions and failed
    [assert]s are explicit outcomes. *)

From Stdlib Require Import String Reals Lra Lia ZArith Bool List.
Import ListNotations.
Open Scope R_scope.

(* ================================================================== *)
(** ** Outcomes of a call (nanospline/Exceptions.h) *)

(** The two exception classes the headers throw, with their message. *)
Inductive exception : Type :=
| not_implemented_error (msg : string)
| invalid_setting_error (msg : string).

(** A call returns a value, throws, or stops on a failed assertion
    ([assert] / Eigen's size checks, debug build). *)
Inductive outcome (A : Type) : Type :=
| Ret (a : A)
| Throw (e : exception)
| AssertFail.
Arguments Ret {A} a.
Arguments Throw {A} e.
Arguments AssertFail {A}.

Definition bind {A B : Type} (m : outcome A) (k : A -> outcome B) : outcome B :=
  match m with
  | Ret a => k a
  | Throw e => Throw e
  | AssertFail => AssertFail
  end.

Notation "x <- m ;; k" := (bind m (fun x => k))
  (at level 61, m at next level, right associativity).
Notation "m ;;; k" := (bind m (fun _ => k))
  (at level 61, right associativity).

(** [assert(b)] *)
Definition assert (b : bool) : outcome unit :=
  if b then Ret tt else AssertFail.

Definition is_not_implemented {A : Type} (o : outcome A) : Prop :=
  exists msg, o = Throw (not_implemented_error msg).

Definition is_invalid_setting {A : Type} (o : outcome A) : Prop :=
  exists msg, o = Throw (invalid_setting_error msg).

Definition returns {A : Type} (o : outcome A) : Prop :=
  exists a, o = Ret a.

(** Comparisons of scalars as booleans. *)
Definition Rgtb (a b : R) : bool := if Rlt_dec b a then true else false.
Definition Rltb (a b : R) : bool := if Rlt_dec a b then true else false.
Definition Rleb (a b : R) : bool := if Rle_dec a b then true else false.
Definition Rgeb (a b : R) : bool := if Rle_dec b a then true else false.

(* ================================================================== *)
(** ** Dense vectors and matrices (the part of Eigen the curve code uses)

    A dynamic vector is a list of scalars, a matrix the list of its rows. *)

Definition Vector := list R.
Definition Matrix := list Vector.

Definition rows (M : Matrix) : nat := length M.

(** [v[i]] *)
Definition coeff (v : Vector) (i : nat) : R := nth i v 0.

(** [v.head<n>()] and [v.segment<n>(i)] *)
Definition head (n : nat) (v : Vector) : Vector := firstn n v.
Definition segment (n i : nat) (v : Vector) : Vector := firstn n (skipn i v).

(** [v * s], [v / s], [a - b] *)
Definition vscale (v : Vector) (s : R) : Vector := map (fun x => x * s) v.
Definition vdiv (v : Vector) (s : R) : Vector := map (fun x => x / s) v.
Fixpoint vsub (a b : Vector) : Vector :=
  match a, b with
  | x :: a', y :: b' => (x - y) :: vsub a' b'
  | _, _ => []
  end.

(** [M.col(j)], [M.leftCols(n)], [M.rightCols<1>()] *)
Definition col (j : nat) (M : Matrix) : Vector := map (fun r => coeff r j) M.
Definition leftCols (n : nat) (M : Matrix) : Matrix := map (head n) M.
Definition rightCols1 (M : Matrix) : Vector :=
  map (fun r => coeff r (length r - 1)) M.

(** [M.array().colwise() * w.array()] and [... / w.array()]: row [i] of [M]
    is scaled by, or divided by, [w[i]].  Eigen requires [w] to have as many
    entries as [M] has rows. *)
Fixpoint colwise_mul (M : Matrix) (w : Vector) : Matrix :=
  match M, w with
  | r :: M', wi :: w' => vscale r wi :: colwise_mul M' w'
  | _, _ => []
  end.
Fixpoint colwise_div (M : Matrix) (w : Vector) : Matrix :=
  match M, w with
  | r :: M', wi :: w' => vdiv r wi :: colwise_div M' w'
  | _, _ => []
  end.

(** Writing the blocks [leftCols<n>() = L] and [rightCols<1>() = w] of a
    fresh matrix with [n+1] columns. *)
Fixpoint hstack (L : Matrix) (w : Vector) : Matrix :=
  match L, w with
  | r :: L', wi :: w' => (r ++ [wi]) :: hstack L' w'
  | _, _ => []
  end.

(** Every row of [M] has [n] entries (the column count is part of the
    matrix type in the source). *)
Definition has_cols (n : nat) (M : Matrix) : Prop :=
  Forall (fun r => length r = n) M.

(* ================================================================== *)
(** ** NURBS.h *)

Module NURBS.

(** Modelled from the spec: the state of the homogeneous curve
    [BSpline<_Scalar, _dim+1, _degree, _generic>] (BSpline.h is not part of
    the sources): a control-point matrix and a knot vector, read and written
    through [get/set_control_points] and [get/set_knots]. *)
Record BSplineHomogeneous : Type := mkBSpline {
  get_control_points : Matrix;
  get_knots : Vector
}.

Definition set_control_points (b : BSplineHomogeneous) (M : Matrix) :=
  mkBSpline M (get_knots b).
Definition set_knots (b : BSplineHomogeneous) (k : Vector) :=
  mkBSpline (get_control_points b) k.

(** The curve object: the members inherited from [BSplineBase] and the two
    private members of [NURBS]. *)
Record NURBS : Type := mkNURBS {
  m_control_points : Matrix;
  m_knots : Vector;
  m_bspline_homogeneous : BSplineHomogeneous;
  m_weights : Vector
}.

Definition Point := Vector.

(** What the class template is instantiated with: the parameter [_dim], the
    polynomial B-spline engine (BSpline.h) and the base-class check
    (BSplineBase.h).  The last two are collaborators of this header; the
    curve code is verified for every behaviour they may have. *)
Class Instantiation : Type := {
  dim : nat;
  bspline_evaluate : BSplineHomogeneous -> R -> outcome Vector;
  bspline_evaluate_derivative : BSplineHomogeneous -> R -> outcome Vector;
  bspline_insert_knot :
    BSplineHomogeneous -> R -> Z -> BSplineHomogeneous * outcome unit;
  validate_curve : Matrix -> Vector -> outcome unit
}.

Section Curve.

Context {I : Instantiation}.

Definition validate_initialization (c : NURBS) : outcome unit :=
  validate_curve (m_control_points c) (m_knots c) ;;;
  let ctrl_pts := get_control_points (m_bspline_homogeneous c) in
  if negb (rows ctrl_pts =? rows (m_control_points c))%nat
     || negb (rows ctrl_pts =? length (m_weights c))%nat
  then Throw (invalid_setting_error "NURBS curve is not initialized.")
  else Ret tt.

Definition evaluate (c : NURBS) (t : R) : outcome Point :=
  validate_initialization c ;;;
  p <- bspline_evaluate (m_bspline_homogeneous c) t ;;
  Ret (vdiv (segment dim 0 p) (coeff p dim)).

Definition inverse_evaluate (c : NURBS) (p : Point) : outcome R :=
  Throw (not_implemented_error "Too complex, sigh").

Definition evaluate_derivative (c : NURBS) (t : R) : outcome Point :=
  validate_initialization c ;;;
  p <- bspline_evaluate (m_bspline_homogeneous c) t ;;
  d <- bspline_evaluate_derivative (m_bspline_homogeneous c) t ;;
  Ret (vdiv (vsub (head dim d)
                  (vdiv (vscale (head dim p) (coeff d dim)) (coeff p dim)))
            (coeff p dim)).

Definition evaluate_2nd_derivative (c : NURBS) (t : R) : outcome Point :=
  Throw (not_implemented_error "Too complex, sigh").

(** Mutators return the object as the call leaves it together with the
    outcome: an exception does not undo the assignments made before it. *)
Definition insert_knot (c : NURBS) (t : R) (multiplicity : Z)
  : NURBS * outcome unit :=
  match validate_initialization c with
  | Ret _ =>
      match bspline_insert_knot (m_bspline_homogeneous c) t multiplicity with
      | (h, Ret _) =>
          let ctrl_pts := get_control_points h in
          let w := col dim ctrl_pts in
          (mkNURBS (colwise_div (leftCols dim ctrl_pts) w)
                   (get_knots h) h w, Ret tt)
      | (h, Throw e) =>
          (mkNURBS (m_control_points c) (m_knots c) h (m_weights c), Throw e)
      | (h, AssertFail) =>
          (mkNURBS (m_control_points c) (m_knots c) h (m_weights c), AssertFail)
      end
  | Throw e => (c, Throw e)
  | AssertFail => (c, AssertFail)
  end.

(** [initialize]: the product [m_control_points.array().colwise() *
    m_weights.array()] and the block assignment need as many weights as
    control points; Eigen asserts it. *)
Definition initialize (c : NURBS) : NURBS * outcome unit :=
  if (rows (m_control_points c) =? length (m_weights c))%nat then
    let ctrl_pts :=
      hstack (colwise_mul (m_control_points c) (m_weights c)) (m_weights c) in
    (mkNURBS (m_control_points c) (m_knots c)
             (set_knots
                (set_control_points (m_bspline_homogeneous c) ctrl_pts)
                (m_knots c))
             (m_weights c), Ret tt)
  else (c, AssertFail).

Definition get_weights (c : NURBS) : Vector := m_weights c.

Definition set_weights (c : NURBS) (weights : Vector) : NURBS :=
  mkNURBS (m_control_points c) (m_knots c) (m_bspline_homogeneous c) weights.

Definition get_homogeneous (c : NURBS) : BSplineHomogeneous :=
  m_bspline_homogeneous c.

(** [set_homogeneous]: the control points of the argument are copied
    before the member is overwritten, so passing the curve's own
    [get_homogeneous()] behaves as passing a copy of it. *)
Definition set_homogeneous (c : NURBS) (homogeneous : BSplineHomogeneous)
  : NURBS * outcome unit :=
  let ctrl_pts := get_control_points homogeneous in
  let w := rightCols1 ctrl_pts in
  let c' := mkNURBS (colwise_div (leftCols dim ctrl_pts) w)
                    (get_knots homogeneous) homogeneous w in
  (c', validate_initialization c').

(** The state the guard of [validate_initialization] rejects. *)
Definition count_mismatch (c : NURBS) : Prop :=
  rows (get_control_points (m_bspline_homogeneous c)) <> rows (m_control_points c)
  \/ rows (get_control_points (m_bspline_homogeneous c)) <> length (m_weights c).

End Curve.

End NURBS.

(* ================================================================== *)
(** ** 3-vectors, 3x3 matrices and axis-angle rotations (Eigen) *)

Record Vector3 : Type := vec3 { vx : R; vy : R; vz : R }.

Record Matrix3 : Type := mat3 { row0 : Vector3; row1 : Vector3; row2 : Vector3 }.

Definition Zero3 : Vector3 := vec3 0 0 0.

Definition add3 (a b : Vector3) : Vector3 :=
  vec3 (vx a + vx b) (vy a + vy b) (vz a + vz b).
Definition sub3 (a b : Vector3) : Vector3 :=
  vec3 (vx a - vx b) (vy a - vy b) (vz a - vz b).
Definition neg3 (a : Vector3) : Vector3 := vec3 (- vx a) (- vy a) (- vz a).
(** [s * v], [v * s] and [v / s] *)
Definition smul3 (s : R) (v : Vector3) : Vector3 :=
  vec3 (s * vx v) (s * vy v) (s * vz v).
Definition muls3 (v : Vector3) (s : R) : Vector3 :=
  vec3 (vx v * s) (vy v * s) (vz v * s).
Definition divs3 (v : Vector3) (s : R) : Vector3 :=
  vec3 (vx v / s) (vy v / s) (vz v / s).

Declare Scope vec3_scope.
Delimit Scope vec3_scope with v3.
Bind Scope vec3_scope with Vector3.
Infix "+" := add3 : vec3_scope.
Infix "-" := sub3 : vec3_scope.
Notation "- a" := (neg3 a) : vec3_scope.

Definition dot (a b : Vector3) : R := vx a * vx b + vy a * vy b + vz a * vz b.
Definition cross (a b : Vector3) : Vector3 :=
  vec3 (vy a * vz b - vz a * vy b)
       (vz a * vx b - vx a * vz b)
       (vx a * vy b - vy a * vx b).
Definition squaredNorm (a : Vector3) : R := dot a a.
Definition norm (a : Vector3) : R := sqrt (squaredNorm a).

(** [v.normalized()]: Eigen divides by the norm unless the squared norm is
    not positive, in which case the vector is returned as it is. *)
Definition normalized (a : Vector3) : Vector3 :=
  let z := squaredNorm a in
  if Rgtb z 0 then divs3 a (sqrt z) else a.

(** [M * v] for a column vector [v] *)
Definition mulMv (M : Matrix3) (v : Vector3) : Vector3 :=
  vec3 (dot (row0 M) v) (dot (row1 M) v) (dot (row2 M) v).

(** [Eigen::AngleAxis<Scalar>(angle, axis)] and its [toRotationMatrix()]
    (Rodrigues' formula, written entry by entry as Eigen does). *)
Record AngleAxis : Type := mkAngleAxis { m_angle : R; m_axis : Vector3 }.

Definition toRotationMatrix (r : AngleAxis) : Matrix3 :=
  let sin_axis := smul3 (sin (m_angle r)) (m_axis r) in
  let c := cos (m_angle r) in
  let cos1_axis := smul3 (1 - c) (m_axis r) in
  let tmp01 := vx cos1_axis * vy (m_axis r) in
  let tmp02 := vx cos1_axis * vz (m_axis r) in
  let tmp12 := vy cos1_axis * vz (m_axis r) in
  mat3 (vec3 (vx cos1_axis * vx (m_axis r) + c)
             (tmp01 - vz sin_axis)
             (tmp02 + vy sin_axis))
       (vec3 (tmp01 + vz sin_axis)
             (vy cos1_axis * vy (m_axis r) + c)
             (tmp12 - vx sin_axis))
       (vec3 (tmp02 - vy sin_axis)
             (tmp12 + vx sin_axis)
             (vz cos1_axis * vz (m_axis r) + c)).

(** [R * v] for an [AngleAxis] [R] *)
Definition rotate (r : AngleAxis) (v : Vector3) : Vector3 :=
  mulMv (toRotationMatrix r) v.

(** [std::numeric_limits<Scalar>::epsilon()] for [Scalar = double], and
    [M_PI] read as the real number pi. *)
Definition epsilon : R := / IZR (2 ^ 52).
Definition M_PI : R := PI.

(* ================================================================== *)
(** ** The curve interface a profile offers (CurveBase) *)

Module CurveBase.

(** Modelled from the spec: the capability set of a profile curve
    ([CurveBase] is not part of the sources): [evaluate],
    [evaluate_derivative], [evaluate_2nd_derivative], [get_periodic] and
    [get_num_control_points].  A curve's queries may throw. *)
Record t : Type := mk {
  evaluate : R -> outcome Vector3;
  evaluate_derivative : R -> outcome Vector3;
  evaluate_2nd_derivative : R -> outcome Vector3;
  get_periodic : bool;
  get_num_control_points : Z
}.

End CurveBase.

(* ================================================================== *)
(** ** RevolutionPatch.h *)

Module RevolutionPatch.

Definition Point := Vector3.
Definition Frame := Matrix3.
Definition ProfileType := CurveBase.t.

(** Modelled from the spec: the bookkeeping of [PatchBase] (PatchBase.h is
    not part of the sources): degree storage and periodicity flags, exposed
    as plain accessors. *)
Record PatchBase : Type := mkBase {
  get_degree_u : Z;
  get_degree_v : Z;
  get_periodic_u : bool;
  get_periodic_v : bool
}.

Record RevolutionPatch : Type := mkPatch {
  base : PatchBase;
  m_location : Point;
  m_frame : Frame;
  m_profile : option ProfileType;   (* [None] is [nullptr] *)
  m_u_lower : R;
  m_u_upper : R;
  m_v_lower : R;
  m_v_upper : R
}.

Definition with_base (p : RevolutionPatch) (b : PatchBase) : RevolutionPatch :=
  mkPatch b (m_location p) (m_frame p) (m_profile p)
          (m_u_lower p) (m_u_upper p) (m_v_lower p) (m_v_upper p).

Definition set_degree_u (p : RevolutionPatch) (d : Z) :=
  with_base p (mkBase d (get_degree_v (base p))
                      (get_periodic_u (base p)) (get_periodic_v (base p))).
Definition set_degree_v (p : RevolutionPatch) (d : Z) :=
  with_base p (mkBase (get_degree_u (base p)) d
                      (get_periodic_u (base p)) (get_periodic_v (base p))).
Definition set_periodic_u (p : RevolutionPatch) (b : bool) :=
  with_base p (mkBase (get_degree_u (base p)) (get_degree_v (base p))
                      b (get_periodic_v (base p))).
Definition set_periodic_v (p : RevolutionPatch) (b : bool) :=
  with_base p (mkBase (get_degree_u (base p)) (get_degree_v (base p))
                      (get_periodic_u (base p)) b).

(** The constructor, run on a freshly constructed base sub-object [b0];
    the member initialisers give the profile and the four bounds. *)
Definition RevolutionPatch_ctor (b0 : PatchBase) : RevolutionPatch :=
  let p := mkPatch b0 Zero3
                   (mat3 (vec3 1 0 0) (vec3 0 1 0) (vec3 0 0 1))
                   None 0 1 0 (2 * M_PI) in
  set_degree_v (set_degree_u p 2) 2.

Definition get_location (p : RevolutionPatch) : Point := m_location p.
Definition set_location (p : RevolutionPatch) (l : Point) : RevolutionPatch :=
  mkPatch (base p) l (m_frame p) (m_profile p)
          (m_u_lower p) (m_u_upper p) (m_v_lower p) (m_v_upper p).
Definition get_frame (p : RevolutionPatch) : Frame := m_frame p.
Definition set_frame (p : RevolutionPatch) (f : Frame) : RevolutionPatch :=
  mkPatch (base p) (m_location p) f (m_profile p)
          (m_u_lower p) (m_u_upper p) (m_v_lower p) (m_v_upper p).
Definition get_profile (p : RevolutionPatch) : option ProfileType := m_profile p.
Definition set_profile (p : RevolutionPatch) (c : option ProfileType)
  : RevolutionPatch :=
  mkPatch (base p) (m_location p) (m_frame p) c
          (m_u_lower p) (m_u_upper p) (m_v_lower p) (m_v_upper p).

Definition assert_valid_profile (p : RevolutionPatch) : outcome unit :=
  match m_profile p with
  | None => Throw (invalid_setting_error "Profile not set!")
  | Some _ => Ret tt
  end.

(** [m_profile->]: reached only behind [assert_valid_profile]. *)
Definition profile (p : RevolutionPatch) : outcome ProfileType :=
  match m_profile p with
  | Some c => Ret c
  | None => AssertFail
  end.

Definition evaluate (p : RevolutionPatch) (u v : R) : outcome Point :=
  assert_valid_profile p ;;;
  c <- profile p ;;
  pt <- CurveBase.evaluate c u ;;
  let R := mkAngleAxis v (row2 (m_frame p)) in
  Ret (m_location p + rotate R (pt - m_location p))%v3.

Definition evaluate_derivative_u (p : RevolutionPatch) (u v : R)
  : outcome Point :=
  assert_valid_profile p ;;;
  c <- profile p ;;
  d <- CurveBase.evaluate_derivative c u ;;
  let R := mkAngleAxis v (row2 (m_frame p)) in
  Ret (rotate R d).

Definition TOL10 : R := epsilon * 10.

Definition evaluate_derivative_v (p : RevolutionPatch) (u v : R)
  : outcome Point :=
  assert_valid_profile p ;;;
  pt <- evaluate p u v ;;
  let d := cross (row2 (m_frame p)) (pt - m_location p) in
  if Rgtb (norm d) TOL10 then
    let v := (pt - m_location p)%v3 in
    let r := norm (v - smul3 (dot v (row2 (m_frame p))) (row2 (m_frame p))) in
    Ret (muls3 (normalized d) r)
  else Ret d.

Definition evaluate_2nd_derivative_uu (p : RevolutionPatch) (u v : R)
  : outcome Point :=
  assert_valid_profile p ;;;
  c <- profile p ;;
  d <- CurveBase.evaluate_2nd_derivative c u ;;
  let R := mkAngleAxis v (row2 (m_frame p)) in
  Ret (rotate R d).

Definition evaluate_2nd_derivative_vv (p : RevolutionPatch) (u v : R)
  : outcome Point :=
  assert_valid_profile p ;;;
  pt <- evaluate p u v ;;
  let d := (pt - m_location p)%v3 in
  Ret (- d + smul3 (dot d (row2 (m_frame p))) (row2 (m_frame p)))%v3.

Definition evaluate_2nd_derivative_uv (p : RevolutionPatch) (u v : R)
  : outcome Point :=
  assert_valid_profile p ;;;
  du <- evaluate_derivative_u p u v ;;
  let duv := cross (row2 (m_frame p)) du in
  if Rgtb (norm duv) TOL10 then
    let r :=
      norm (duv - smul3 (dot duv (row2 (m_frame p))) (row2 (m_frame p))) in
    Ret (muls3 (normalized duv) r)
  else Ret duv.

Definition initialize (p : RevolutionPatch) : RevolutionPatch * outcome unit :=
  let TOL := TOL10 in
  let checks :=
    assert_valid_profile p ;;;
    assert (Rltb (Rabs (squaredNorm (row0 (m_frame p)) - 1)) TOL) ;;;
    assert (Rltb (Rabs (squaredNorm (row1 (m_frame p)) - 1)) TOL) ;;;
    assert (Rltb (Rabs (squaredNorm (row2 (m_frame p)) - 1)) TOL) ;;;
    assert (Rltb (Rabs (dot (row0 (m_frame p)) (row1 (m_frame p)))) TOL) ;;;
    assert (Rltb (Rabs (dot (row1 (m_frame p)) (row2 (m_frame p)))) TOL) ;;;
    assert (Rltb (Rabs (dot (row2 (m_frame p)) (row0 (m_frame p)))) TOL) ;;;
    assert (Rgtb (m_u_upper p) (m_u_lower p)) ;;;
    assert (Rgtb (m_v_upper p) (m_v_lower p)) ;;;
    profile p in
  match checks with
  | Ret c =>
      let p1 := set_periodic_u p (CurveBase.get_periodic c) in
      if Rgtb (m_v_upper p1 - m_v_lower p1) (2 * M_PI - TOL)
      then (set_periodic_v p1 true, Ret tt)
      else (p1, Ret tt)
  | Throw e => (p, Throw e)
  | AssertFail => (p, AssertFail)
  end.

Definition UVPoint : Type := (R * R)%type.

(** Modelled from the spec: the two phases of the generic inversion that
    [PatchBase] provides (PatchBase.h is not part of the sources): the
    coarse sampling search [approximate_inverse_evaluate(p, num_samples,
    min_u, max_u, min_v, max_v, level)] and the bounded refinement
    [newton_raphson(p, uv, num_iterations, tol, min_u, max_u, min_v,
    max_v)].  Both call back into the patch, so they take it as an
    argument; the code below is verified for every behaviour they have. *)
Class PatchSolver : Type := {
  approximate_inverse_evaluate :
    RevolutionPatch -> Point -> Z -> R -> R -> R -> R -> Z -> outcome UVPoint;
  newton_raphson :
    RevolutionPatch -> Point -> UVPoint -> Z -> R -> R -> R -> R -> R
    -> outcome UVPoint
}.

Definition TOL100 : R := epsilon * 100.

(** [inverse_evaluate]; the sample count is an [int] in the source and is
    taken here without wrap-around. *)
Definition inverse_evaluate {S : PatchSolver} (p : RevolutionPatch)
           (pt : Point) (min_u max_u min_v max_v : R) : outcome UVPoint :=
  assert_valid_profile p ;;;
  c <- profile p ;;
  let num_samples := (Z.max (CurveBase.get_num_control_points c) 7 + 1)%Z in
  uv <- approximate_inverse_evaluate p pt num_samples
          min_u max_u min_v max_v 10 ;;
  uv <- newton_raphson p pt uv 20 TOL100 min_u max_u min_v max_v ;;
  assert (Rgeb (fst uv) min_u && Rleb (fst uv) max_u) ;;;
  assert (Rgeb (snd uv) min_v && Rleb (snd uv) max_v) ;;;
  Ret uv.

(** The conditions [initialize] checks before it sets the flags. *)
Definition ready (p : RevolutionPatch) : Prop :=
  m_profile p <> None /\
  Rabs (squaredNorm (row0 (m_frame p)) - 1) < TOL10 /\
  Rabs (squaredNorm (row1 (m_frame p)) - 1) < TOL10 /\
  Rabs (squaredNorm (row2 (m_frame p)) - 1) < TOL10 /\
  Rabs (dot (row0 (m_frame p)) (row1 (m_frame p))) < TOL10 /\
  Rabs (dot (row1 (m_frame p)) (row2 (m_frame p))) < TOL10 /\
  Rabs (dot (row2 (m_frame p)) (row0 (m_frame p))) < TOL10 /\
  m_u_lower p < m_u_upper p /\
  m_v_lower p < m_v_upper p.

Definition get_u_lower_bound (p : RevolutionPatch) : R := m_u_lower p.
Definition get_u_upper_bound (p : RevolutionPatch) : R := m_u_upper p.
Definition get_v_lower_bound (p : RevolutionPatch) : R := m_v_lower p.
Definition get_v_upper_bound (p : RevolutionPatch) : R := m_v_upper p.

Definition set_u_lower_bound (p : RevolutionPatch) (t : R) : RevolutionPatch :=
  mkPatch (base p) (m_location p) (m_frame p) (m_profile p)
          t (m_u_upper p) (m_v_lower p) (m_v_upper p).
Definition set_u_upper_bound (p : RevolutionPatch) (t : R) : RevolutionPatch :=
  mkPatch (base p) (m_location p) (m_frame p) (m_profile p)
          (m_u_lower p) t (m_v_lower p) (m_v_upper p).
Definition set_v_lower_bound (p : RevolutionPatch) (t : R) : RevolutionPatch :=
  mkPatch (base p) (m_location p) (m_frame p) (m_profile p)
          (m_u_lower p) (m_u_upper p) t (m_v_upper p).
Definition set_v_upper_bound (p : RevolutionPatch) (t : R) : RevolutionPatch :=
  mkPatch (base p) (m_location p) (m_frame p) (m_profile p)
          (m_u_lower p) (m_u_upper p) (m_v_lower p) t.

(** The accessor surface shared with the B-spline patches. *)
Definition get_num_weights_u (p : RevolutionPatch) : outcome Z := Ret 0%Z.
Definition get_num_weights_v (p : RevolutionPatch) : outcome Z := Ret 0%Z.
Definition get_weight (p : RevolutionPatch) (i j : Z) : outcome R :=
  Throw (not_implemented_error "RevolutionPatch patch does not support weight").
Definition set_weight (p : RevolutionPatch) (i j : Z) (val : R)
  : RevolutionPatch * outcome unit :=
  (p, Throw (not_implemented_error
               "RevolutionPatch patch does not support weight")).

Definition get_num_knots_u (p : RevolutionPatch) : outcome Z := Ret 0%Z.
Definition get_knot_u (p : RevolutionPatch) (i : Z) : outcome R :=
  Throw (not_implemented_error "RevolutionPatch patch does not support knots").
Definition set_knot_u (p : RevolutionPatch) (i : Z) (val : R)
  : RevolutionPatch * outcome unit :=
  (p, Throw (not_implemented_error
               "RevolutionPatch patch does not support knots")).

Definition get_num_knots_v (p : RevolutionPatch) : outcome Z := Ret 0%Z.
Definition get_knot_v (p : RevolutionPatch) (i : Z) : outcome R :=
  Throw (not_implemented_error "RevolutionPatch patch does not support knots").
Definition set_knot_v (p : RevolutionPatch) (i : Z) (val : R)
  : RevolutionPatch * outcome unit :=
  (p, Throw (not_implemented_error
               "RevolutionPatch patch does not support knots")).

Definition num_control_points_u (p : RevolutionPatch) : outcome Z := Ret 0%Z.
Definition num_control_points_v (p : RevolutionPatch) : outcome Z := Ret 0%Z.
Definition get_control_point_preimage (p : RevolutionPatch) (i j : Z)
  : outcome (R * R) :=
  Throw (not_implemented_error "RevolutionPatch does not need control points.").

End RevolutionPatch.

(* ================================================================== *)
(** ** Concrete objects the statements below are exercised on *)

Module Sample.

(** A degree-1 polynomial engine on two control points over [0,1]:
    linear interpolation, its constant derivative, and the insertion of
    one knot, which adds the interpolated control point. *)
Fixpoint lerp (a b : Vector) (t : R) : Vector :=
  match a, b with
  | x :: a', y :: b' => ((1 - t) * x + t * y) :: lerp a' b' t
  | _, _ => []
  end.

Definition segment_evaluate (h : NURBS.BSplineHomogeneous) (t : R)
  : outcome Vector :=
  match NURBS.get_control_points h with
  | [a; b] => Ret (lerp a b t)
  | _ => Throw (invalid_setting_error "two control points expected")
  end.

Definition segment_evaluate_derivative (h : NURBS.BSplineHomogeneous) (t : R)
  : outcome Vector :=
  match NURBS.get_control_points h with
  | [a; b] => Ret (vsub b a)
  | _ => Throw (invalid_setting_error "two control points expected")
  end.

Definition segment_insert_knot (h : NURBS.BSplineHomogeneous) (t : R) (m : Z)
  : NURBS.BSplineHomogeneous * outcome unit :=
  match NURBS.get_control_points h with
  | [a; b] => (NURBS.mkBSpline [a; lerp a b t; b] [0; 0; t; 1; 1], Ret tt)
  | _ => (h, Throw (invalid_setting_error "two control points expected"))
  end.

Definition knot_count_check (M : Matrix) (k : Vector) : outcome unit :=
  if (length k =? rows M + 2)%nat then Ret tt
  else Throw (invalid_setting_error "knot vector size mismatch").

Definition planar_segment : NURBS.Instantiation :=
  {| NURBS.dim := 2;
     NURBS.bspline_evaluate := segment_evaluate;
     NURBS.bspline_evaluate_derivative := segment_evaluate_derivative;
     NURBS.bspline_insert_knot := segment_insert_knot;
     NURBS.validate_curve := knot_count_check |}.

(** A rational segment from (0,0) to (1,1) with weights 1 and 2, before
    [initialize] has been run on it. *)
Definition raw_curve : NURBS.NURBS :=
  NURBS.mkNURBS [[0; 0]; [1; 1]] [0; 0; 1; 1] (NURBS.mkBSpline [] []) [1; 2].

(** The same curve with its homogeneous copy in place. *)
Definition ready_curve : NURBS.NURBS :=
  NURBS.mkNURBS [[0; 0]; [1; 1]] [0; 0; 1; 1]
                (NURBS.mkBSpline [[0; 0; 1]; [2; 2; 2]] [0; 0; 1; 1]) [1; 2].

(** The straight segment from (1,0,0) to (1,1,0) parameterised on [0,1]. *)
Definition line_profile : CurveBase.t :=
  CurveBase.mk (fun u => Ret (vec3 1 u 0))
               (fun _ => Ret (vec3 0 1 0))
               (fun _ => Ret Zero3)
               false 2.

Definition fresh_base : RevolutionPatch.PatchBase :=
  RevolutionPatch.mkBase 0 0 false false.

(** A default-constructed patch given the line as its profile. *)
Definition line_patch : RevolutionPatch.RevolutionPatch :=
  RevolutionPatch.set_profile
    (RevolutionPatch.RevolutionPatch_ctor fresh_base) (Some line_profile).

(** What [initialize] leaves of [line_patch] (default v-bounds [0, 2 pi]),
    and that patch with its v-range narrowed to [0, 1]. *)
Definition initialized_line_patch : RevolutionPatch.RevolutionPatch :=
  RevolutionPatch.set_periodic_v
    (RevolutionPatch.set_periodic_u line_patch false) true.

Definition narrowed_line_patch : RevolutionPatch.RevolutionPatch :=
  RevolutionPatch.set_v_upper_bound initialized_line_patch 1.

(** A default-constructed patch that was never given a profile. *)
Definition bare_patch : RevolutionPatch.RevolutionPatch :=
  RevolutionPatch.RevolutionPatch_ctor fresh_base.

(** A solver that answers with the lower corner of the box and refines
    nothing. *)
Definition corner_solver : RevolutionPatch.PatchSolver :=
  {| RevolutionPatch.approximate_inverse_evaluate :=
       fun _ _ _ min_u _ min_v _ _ => Ret (min_u, min_v);
     RevolutionPatch.newton_raphson :=
       fun _ _ uv _ _ _ _ _ _ => Ret uv |}.

End Sample.

(* ================================================================== *)
(** * Properties of the rational curve *)

Section NURBS_properties.

Import NURBS.
Context {I : Instantiation}.

Lemma validate_initialization_ok (c : NURBS) :
  validate_initialization c = Ret tt ->
  validate_curve (m_control_points c) (m_knots c) = Ret tt /\
  rows (get_control_points (m_bspline_homogeneous c)) = rows (m_control_points c) /\
  rows (get_control_points (m_bspline_homogeneous c)) = length (m_weights c).
Proof.
  unfold validate_initialization.
  destruct (validate_curve _ _) as [[]| |]; simpl; try discriminate.
  destruct (Nat.eqb_spec (rows (get_control_points (m_bspline_homogeneous c)))
                         (rows (m_control_points c)));
  destruct (Nat.eqb_spec (rows (get_control_points (m_bspline_homogeneous c)))
                         (length (m_weights c)));
  simpl; intros H; try discriminate; auto.
Qed.

Lemma validate_initialization_mismatch (c : NURBS) :
  count_mismatch c ->
  validate_curve (m_control_points c) (m_knots c) = Ret tt ->
  validate_initialization c =
  Throw (invalid_setting_error "NURBS curve is not initialized.").
Proof.
  unfold validate_initialization, count_mismatch.
  intros Hm ->. simpl.
  destruct (Nat.eqb_spec (rows (get_control_points (m_bspline_homogeneous c)))
                         (rows (m_control_points c)));
  destruct (Nat.eqb_spec (rows (get_control_points (m_bspline_homogeneous c)))
                         (length (m_weights c)));
  simpl; try reflexivity.
  destruct Hm; contradiction.
Qed.

Lemma validate_initialization_mismatch_never_passes (c : NURBS) :
  count_mismatch c -> validate_initialization c <> Ret tt.
Proof.
  intros Hm H. apply validate_initialization_ok in H.
  destruct H as (_ & H1 & H2). destruct Hm; contradiction.
Qed.

(** C4. On every curve object, whatever its state, and for every argument,
    [evaluate_2nd_derivative] and [inverse_evaluate] throw
    [not_implemented_error]; neither returns a value. *)
Theorem unsupported_queries_throw (c : NURBS) (t : R) (pt : Point) :
  evaluate_2nd_derivative c t =
    Throw (not_implemented_error "Too complex, sigh") /\
  inverse_evaluate c pt =
    Throw (not_implemented_error "Too complex, sigh") /\
  is_not_implemented (evaluate_2nd_derivative c t) /\
  is_not_implemented (inverse_evaluate c pt) /\
  ~ returns (evaluate_2nd_derivative c t) /\
  ~ returns (inverse_evaluate c pt).
Proof.
  repeat split; try (eexists; reflexivity);
    intros [a Ha]; discriminate Ha.
Qed.

(** C5 (amended). On a curve whose homogeneous control-point count differs
    from the physical control-point count or from the weight count,
    [evaluate] and [evaluate_derivative] throw [invalid_setting_error]
    (the base-class check of the curve passing, or itself rejecting the
    curve with that error): when the base-class check passes, the error is
    the one of [validate_initialization].  [inverse_evaluate] throws
    [not_implemented_error], as it does in every state. *)
Theorem stale_curve_queries (c : NURBS) :
  count_mismatch c ->
  validate_curve (m_control_points c) (m_knots c) = Ret tt \/
  is_invalid_setting (validate_curve (m_control_points c) (m_knots c)) ->
  (forall t, is_invalid_setting (evaluate c t)) /\
  (forall t, is_invalid_setting (evaluate_derivative c t)) /\
  (forall pt, inverse_evaluate c pt =
     Throw (not_implemented_error "Too complex, sigh")) /\
  (validate_curve (m_control_points c) (m_knots c) = Ret tt ->
   forall t,
     evaluate c t =
       Throw (invalid_setting_error "NURBS curve is not initialized.") /\
     evaluate_derivative c t =
       Throw (invalid_setting_error "NURBS curve is not initialized.")).
Proof.
  intros Hm Hv.
  assert (Hpass : validate_curve (m_control_points c) (m_knots c) = Ret tt ->
                  forall t,
                    evaluate c t =
                      Throw (invalid_setting_error
                               "NURBS curve is not initialized.") /\
                    evaluate_derivative c t =
                      Throw (invalid_setting_error
                               "NURBS curve is not initialized.")).
  { intros Hok t.
    pose proof (validate_initialization_mismatch c Hm Hok) as E.
    unfold evaluate, evaluate_derivative. rewrite E. simpl. auto. }
  assert (Hfail : is_invalid_setting
                    (validate_curve (m_control_points c) (m_knots c)) ->
                  forall t,
                    is_invalid_setting (evaluate c t) /\
                    is_invalid_setting (evaluate_derivative c t)).
  { intros [msg Hmsg] t.
    unfold evaluate, evaluate_derivative, validate_initialization.
    rewrite Hmsg. simpl. split; exists msg; reflexivity. }
  repeat split; try assumption.
  - intros t. destruct Hv as [Hok|Hbad].
    + eexists. apply (Hpass Hok t).
    + apply (Hfail Hbad t).
  - intros t. destruct Hv as [Hok|Hbad].
    + eexists. apply (Hpass Hok t).
    + apply (Hfail Hbad t).
  - apply (Hpass H t).
  - apply (Hpass H t).
Qed.

(** X25. Whatever the base-class check does, a forward query on a curve
    whose counts do not match never returns a value. *)
Lemma stale_curve_never_evaluates (c : NURBS) (t : R) :
  count_mismatch c ->
  ~ returns (evaluate c t) /\ ~ returns (evaluate_derivative c t).
Proof.
  intros Hm.
  pose proof (validate_initialization_mismatch_never_passes c Hm) as N.
  unfold evaluate, evaluate_derivative.
  destruct (validate_initialization c) as [[]| |]; simpl.
  - contradiction N; reflexivity.
  - split; intros [a Ha]; discriminate.
  - split; intros [a Ha]; discriminate.
Qed.

(** *** Entries of the list-based vectors *)

Lemma coeff_vdiv (v : Vector) (s : R) (i : nat) :
  coeff (vdiv v s) i = coeff v i / s.
Proof.
  unfold coeff, vdiv.
  replace 0 with (0 / s) at 1 by (unfold Rdiv; apply Rmult_0_l).
  apply (map_nth (fun x => x / s)).
Qed.

Lemma coeff_vscale (v : Vector) (s : R) (i : nat) :
  coeff (vscale v s) i = coeff v i * s.
Proof.
  unfold coeff, vscale.
  replace 0 with (0 * s) at 1 by apply Rmult_0_l.
  apply (map_nth (fun x => x * s)).
Qed.

Lemma coeff_head (n : nat) (v : Vector) (i : nat) :
  (i < n)%nat -> coeff (head n v) i = coeff v i.
Proof.
  unfold coeff, head. revert v i.
  induction n as [|n IH]; intros v i Hi; [lia|].
  destruct v as [|x v]; simpl; [destruct i; reflexivity|].
  destruct i as [|i]; [reflexivity|]. apply IH. lia.
Qed.

Lemma coeff_vsub (a b : Vector) (i : nat) :
  (i < length a)%nat -> (i < length b)%nat ->
  coeff (vsub a b) i = coeff a i - coeff b i.
Proof.
  unfold coeff. revert b i.
  induction a as [|x a IH]; intros b i Ha Hb; simpl in *; [lia|].
  destruct b as [|y b]; simpl in *; [lia|].
  destruct i as [|i]; [reflexivity|]. apply IH; lia.
Qed.

Lemma length_vdiv (v : Vector) (s : R) : length (vdiv v s) = length v.
Proof. apply length_map. Qed.

Lemma length_vscale (v : Vector) (s : R) : length (vscale v s) = length v.
Proof. apply length_map. Qed.

Lemma length_vsub (a b : Vector) :
  length (vsub a b) = Nat.min (length a) (length b).
Proof.
  revert b. induction a as [|x a IH]; intros [|y b]; simpl; auto.
Qed.

Lemma length_head (n : nat) (v : Vector) :
  (n <= length v)%nat -> length (head n v) = n.
Proof. intros H. unfold head. rewrite length_firstn. lia. Qed.

Lemma last_coeff (n : nat) (v : Vector) :
  length v = S n -> last v 0 = coeff v n.
Proof.
  unfold coeff. revert v.
  induction n as [|n IH]; intros v Hv.
  - destruct v as [|x [|y v]]; simpl in *; try discriminate; reflexivity.
  - destruct v as [|x [|y v]]; simpl in *; try discriminate.
    apply (IH (y :: v)). simpl. lia.
Qed.

(** C1. On an initialized curve, at a parameter where the homogeneous curve
    evaluates to [p] and its derivative to [d], both with [dim+1] entries,
    and the last entry of [p] is not zero, [evaluate_derivative] returns
    the vector [(d_head - p_head * d_last / p_last) / p_last]: it has [dim]
    entries and entry [i] is [(d_i - p_i * d_last / p_last) / p_last],
    which is the quotient rule [(d_i * p_last - p_i * d_last) / p_last^2]. *)
Theorem evaluate_derivative_quotient (c : NURBS) (t : R) (p d : Vector) :
  validate_initialization c = Ret tt ->
  bspline_evaluate (m_bspline_homogeneous c) t = Ret p ->
  bspline_evaluate_derivative (m_bspline_homogeneous c) t = Ret d ->
  length p = S dim -> length d = S dim ->
  last p 0 <> 0 ->
  exists q,
    evaluate_derivative c t = Ret q /\
    q = vdiv (vsub (head dim d)
                   (vdiv (vscale (head dim p) (last d 0)) (last p 0)))
             (last p 0) /\
    length q = dim /\
    forall i, (i < dim)%nat ->
      coeff q i = (coeff d i - coeff p i * last d 0 / last p 0) / last p 0 /\
      coeff q i =
        (coeff d i * last p 0 - coeff p i * last d 0) / (last p 0 * last p 0).
Proof.
  intros Hv Hp Hd Lp Ld Hne.
  rewrite (last_coeff dim p Lp) in *. rewrite (last_coeff dim d Ld).
  eexists. split; [|split; [reflexivity|]].
  - unfold evaluate_derivative. rewrite Hv, Hp, Hd. reflexivity.
  - assert (Lq : forall n, (n <= dim)%nat ->
              length (vdiv (vsub (head n d)
                (vdiv (vscale (head n p) (coeff d dim)) (coeff p dim)))
                (coeff p dim)) = n).
    { intros n Hn.
      rewrite length_vdiv, length_vsub, length_vdiv, length_vscale,
        !length_head by lia. lia. }
    split; [apply Lq; lia|].
    intros i Hi.
    assert (E : coeff (vdiv (vsub (head dim d)
                  (vdiv (vscale (head dim p) (coeff d dim)) (coeff p dim)))
                  (coeff p dim)) i
                = (coeff d i - coeff p i * coeff d dim / coeff p dim)
                  / coeff p dim).
    { rewrite coeff_vdiv, coeff_vsub.
      - rewrite coeff_vdiv, coeff_vscale, !coeff_head by lia. reflexivity.
      - rewrite length_head; lia.
      - rewrite length_vdiv, length_vscale, length_head; lia. }
    split; [exact E|]. rewrite E. field. exact Hne.
Qed.

(** *** Columns of the list-based matrices *)

Lemma rightCols1_col (n : nat) (M : Matrix) :
  has_cols (S n) M -> rightCols1 M = col n M.
Proof.
  unfold has_cols, rightCols1, col.
  induction 1 as [|r M Hr _ IH]; simpl; [reflexivity|].
  rewrite IH, Hr. simpl. rewrite Nat.sub_0_r. reflexivity.
Qed.

Lemma rows_colwise_div (M : Matrix) (w : Vector) :
  rows M = length w -> rows (colwise_div M w) = rows M.
Proof.
  unfold rows. revert w.
  induction M as [|r M IH]; intros [|wi w] H; simpl in *;
    try discriminate; auto.
Qed.

Lemma rows_leftCols (n : nat) (M : Matrix) : rows (leftCols n M) = rows M.
Proof. apply length_map. Qed.

Lemma length_col (j : nat) (M : Matrix) : length (col j M) = rows M.
Proof. apply length_map. Qed.

Lemma length_rightCols1 (M : Matrix) : length (rightCols1 M) = rows M.
Proof. apply length_map. Qed.

Lemma has_cols_leftCols_div (n : nat) (M : Matrix) :
  has_cols (S n) M -> has_cols n (colwise_div (leftCols n M) (col n M)).
Proof.
  unfold has_cols.
  induction 1 as [|r M Hr _ IH]; simpl; constructor; auto.
  rewrite length_vdiv, length_head; lia.
Qed.

Lemma nth_colwise_div (M : Matrix) (w : Vector) (i : nat) :
  (i < rows M)%nat -> rows M = length w ->
  nth i (colwise_div M w) [] = vdiv (nth i M []) (coeff w i).
Proof.
  unfold rows, coeff. revert w i.
  induction M as [|r M IH]; intros [|wi w] i Hi Hl; simpl in *;
    try lia; try discriminate.
  destruct i as [|i]; [reflexivity|]. apply IH; lia.
Qed.

Lemma nth_leftCols (n : nat) (M : Matrix) (i : nat) :
  (i < rows M)%nat -> nth i (leftCols n M) [] = head n (nth i M []).
Proof.
  unfold rows, leftCols. revert i.
  induction M as [|r M IH]; intros i Hi; simpl in *; [lia|].
  destruct i as [|i]; [reflexivity|]. apply IH; lia.
Qed.

Lemma coeff_col (j : nat) (M : Matrix) (i : nat) :
  (i < rows M)%nat -> coeff (col j M) i = coeff (nth i M []) j.
Proof.
  unfold rows, col. revert i.
  induction M as [|r M IH]; intros i Hi; simpl in *; [lia|].
  destruct i as [|i]; [reflexivity|]. apply IH; lia.
Qed.

(** C6. After [insert_knot] has run on an initialized curve and the engine
    has left the homogeneous curve [h] (whose control points have [dim+1]
    columns), the physical control points are the leading [dim] columns of
    [h]'s control points divided row by row by its trailing column, the
    weights are that trailing column and the knots are [h]'s knots; the
    three counts agree again.  The weights before the insertion play no
    part. *)
Theorem insert_knot_rederives (c : NURBS) (t : R) (multiplicity : Z)
        (h : BSplineHomogeneous) :
  validate_initialization c = Ret tt ->
  bspline_insert_knot (m_bspline_homogeneous c) t multiplicity = (h, Ret tt) ->
  has_cols (S dim) (get_control_points h) ->
  exists c',
    insert_knot c t multiplicity = (c', Ret tt) /\
    m_bspline_homogeneous c' = h /\
    m_control_points c' =
      colwise_div (leftCols dim (get_control_points h))
                  (rightCols1 (get_control_points h)) /\
    m_weights c' = rightCols1 (get_control_points h) /\
    m_knots c' = get_knots h /\
    rows (m_control_points c') = rows (get_control_points h) /\
    length (m_weights c') = rows (get_control_points h) /\
    has_cols dim (m_control_points c') /\
    forall i j, (i < rows (get_control_points h))%nat -> (j < dim)%nat ->
      coeff (nth i (m_control_points c') []) j =
      coeff (nth i (get_control_points h) []) j /
      coeff (nth i (get_control_points h) []) dim.
Proof.
  intros Hv Hk Hc.
  unfold insert_knot. rewrite Hv, Hk.
  eexists. split; [reflexivity|]. simpl.
  rewrite (rightCols1_col dim _ Hc).
  repeat split.
  - rewrite rows_colwise_div; rewrite rows_leftCols;
      [reflexivity | symmetry; apply length_col].
  - apply length_col.
  - apply has_cols_leftCols_div; assumption.
  - intros i j Hi Hj.
    rewrite nth_colwise_div, coeff_vdiv, nth_leftCols, coeff_head, coeff_col;
      rewrite ?rows_leftCols, ?length_col; auto.
Qed.

(** *** Lifting to homogeneous coordinates and back *)

Lemma rightCols1_hstack (L : Matrix) (w : Vector) :
  rows L = length w -> rightCols1 (hstack L w) = w.
Proof.
  unfold rows. revert w.
  induction L as [|r L IH]; intros [|wi w] H; simpl in *;
    try discriminate; [reflexivity|].
  f_equal; [|apply IH; lia].
  unfold coeff. rewrite length_app. simpl.
  replace (length r + 1 - 1)%nat with (length r) by lia.
  rewrite nth_middle. reflexivity.
Qed.

Lemma leftCols_hstack (n : nat) (L : Matrix) (w : Vector) :
  has_cols n L -> rows L = length w -> leftCols n (hstack L w) = L.
Proof.
  unfold rows, has_cols. intros HL. revert w.
  induction HL as [|r L Hr _ IH]; intros [|wi w] H; simpl in *;
    try discriminate; [reflexivity|].
  f_equal; [|apply IH; lia].
  unfold head. rewrite firstn_app, Hr, Nat.sub_diag. simpl.
  rewrite app_nil_r. rewrite <- Hr. apply firstn_all.
Qed.

Lemma has_cols_colwise_mul (n : nat) (M : Matrix) (w : Vector) :
  has_cols n M -> has_cols n (colwise_mul M w).
Proof.
  unfold has_cols. intros HM. revert w.
  induction HM as [|r M Hr _ IH]; intros [|wi w]; simpl; constructor; auto.
  rewrite length_vscale. assumption.
Qed.

Lemma rows_colwise_mul (M : Matrix) (w : Vector) :
  rows M = length w -> rows (colwise_mul M w) = rows M.
Proof.
  unfold rows. revert w.
  induction M as [|r M IH]; intros [|wi w] H; simpl in *;
    try discriminate; auto.
Qed.

Lemma vdiv_vscale (r : Vector) (s : R) : s <> 0 -> vdiv (vscale r s) s = r.
Proof.
  intros Hs. unfold vdiv, vscale. rewrite map_map.
  rewrite <- (map_id r) at 2. apply map_ext. intros x. field. exact Hs.
Qed.

Lemma vscale_vdiv (r : Vector) (s : R) : s <> 0 -> vscale (vdiv r s) s = r.
Proof.
  intros Hs. unfold vdiv, vscale. rewrite map_map.
  rewrite <- (map_id r) at 2. apply map_ext. intros x. field. exact Hs.
Qed.

Lemma colwise_div_mul (M : Matrix) (w : Vector) :
  rows M = length w -> Forall (fun x => x <> 0) w ->
  colwise_div (colwise_mul M w) w = M.
Proof.
  unfold rows. intros Hl Hw. revert M Hl.
  induction Hw as [|wi w Hwi _ IH]; intros [|r M] Hl; simpl in *;
    try discriminate; [reflexivity|].
  rewrite vdiv_vscale by assumption. f_equal. apply IH. lia.
Qed.

Lemma initialize_ok (c c1 : NURBS) :
  initialize c = (c1, Ret tt) ->
  rows (m_control_points c) = length (m_weights c) /\
  c1 = mkNURBS (m_control_points c) (m_knots c)
         (mkBSpline
            (hstack (colwise_mul (m_control_points c) (m_weights c))
                    (m_weights c))
            (m_knots c))
         (m_weights c).
Proof.
  unfold initialize.
  destruct (Nat.eqb_spec (rows (m_control_points c)) (length (m_weights c)))
    as [E|E]; intros H; inversion H; subst; auto.
Qed.

Lemma bind_unit_ret (o : outcome unit) : (o ;;; Ret tt) = o.
Proof. destruct o as [[]| |]; reflexivity. Qed.

(** C7. Let [initialize] have run on a curve whose control points have
    [dim] columns and whose weights are all non-zero.  Then
    [set_homogeneous(get_homogeneous())] leaves the object as it was: the
    physical control points and the weights are the original ones (so are
    the knots and the homogeneous copy), and the call ends the way the
    base-class check of the original curve does. *)
Theorem homogeneous_round_trip (c c1 : NURBS) :
  has_cols dim (m_control_points c) ->
  Forall (fun w => w <> 0) (m_weights c) ->
  initialize c = (c1, Ret tt) ->
  exists c2,
    set_homogeneous c1 (get_homogeneous c1) =
      (c2, validate_curve (m_control_points c) (m_knots c)) /\
    m_control_points c2 = m_control_points c /\
    m_weights c2 = m_weights c /\
    m_knots c2 = m_knots c /\
    c2 = c1.
Proof.
  intros Hc Hw Hi.
  destruct (initialize_ok c c1 Hi) as [Hl E].
  exists c1. subst c1.
  assert (Hl' : rows (colwise_mul (m_control_points c) (m_weights c))
                = length (m_weights c))
    by (rewrite rows_colwise_mul; assumption).
  assert (Hr : rows (hstack (colwise_mul (m_control_points c) (m_weights c))
                            (m_weights c)) = rows (m_control_points c)).
  { rewrite <- (length_rightCols1 (hstack _ _)).
    rewrite (rightCols1_hstack _ _ Hl'). symmetry. exact Hl. }
  split; [|repeat split].
  unfold set_homogeneous, get_homogeneous. cbn [m_bspline_homogeneous
    get_control_points get_knots].
  rewrite (rightCols1_hstack _ _ Hl').
  rewrite (leftCols_hstack dim _ _
             (has_cols_colwise_mul dim _ (m_weights c) Hc) Hl').
  rewrite (colwise_div_mul _ _ Hl Hw).
  f_equal.
  unfold validate_initialization.
  cbn [m_bspline_homogeneous get_control_points m_control_points m_knots
       m_weights].
  rewrite Hr, <- Hl, Nat.eqb_refl.
  apply bind_unit_ret.
Qed.

Lemma firstn_snoc_nth (n : nat) (r : Vector) :
  length r = S n -> head n r ++ [coeff r n] = r.
Proof.
  unfold head, coeff. revert r.
  induction n as [|n IH]; intros r Hr.
  - destruct r as [|x [|y r]]; simpl in *; try discriminate; reflexivity.
  - destruct r as [|x r]; simpl in *; [discriminate|].
    f_equal. apply IH. lia.
Qed.

(** Lifting what [insert_knot] and [set_homogeneous] derive gives the
    homogeneous control points back. *)
Lemma lift_of_projection (n : nat) (H : Matrix) :
  has_cols (S n) H ->
  Forall (fun x => x <> 0) (rightCols1 H) ->
  hstack (colwise_mul (colwise_div (leftCols n H) (rightCols1 H))
                      (rightCols1 H))
         (rightCols1 H) = H.
Proof.
  unfold has_cols.
  induction 1 as [|r H Hr _ IH]; intros Hw; simpl in *; [reflexivity|].
  inversion Hw as [|? ? Hw1 Hw2]; subst.
  rewrite IH by assumption. f_equal.
  rewrite vscale_vdiv by assumption.
  rewrite Hr. simpl. rewrite Nat.sub_0_r.
  apply firstn_snoc_nth. assumption.
Qed.

(** X24. After a knot insertion that leaves non-zero weights, running
    [initialize] again changes nothing: the homogeneous copy is the lift of
    the re-derived control points and weights. *)
Lemma insert_knot_then_initialize (c c' : NURBS) (t : R) (multiplicity : Z) :
  insert_knot c t multiplicity = (c', Ret tt) ->
  has_cols (S dim) (get_control_points (m_bspline_homogeneous c')) ->
  Forall (fun x => x <> 0)
         (rightCols1 (get_control_points (m_bspline_homogeneous c'))) ->
  initialize c' = (c', Ret tt).
Proof.
  unfold insert_knot.
  destruct (validate_initialization c) as [[]| |]; try discriminate.
  destruct (bspline_insert_knot _ _ _) as [h [[]| |]]; try discriminate.
  intros E. inversion E; subst; clear E. simpl.
  intros Hc Hw.
  unfold initialize. simpl.
  rewrite <- (rightCols1_col dim _ Hc).
  rewrite rows_colwise_div;
    rewrite rows_leftCols, ?length_rightCols1, ?Nat.eqb_refl;
    [|reflexivity].
  rewrite (lift_of_projection dim _ Hc Hw).
  unfold set_knots, set_control_points. simpl.
  destruct h; reflexivity.
Qed.

End NURBS_properties.

(** *** The curve theorems on the sample segment *)

Lemma unit_weights_nonzero : Forall (fun w : R => w <> 0) [1; 2].
Proof. repeat constructor; lra. Defined.

(** On the sample segment the curve is [t |-> (2t/(1+t), 2t/(1+t))]; its
    derivative at 1/2 is 8/9 in both coordinates. *)
Lemma evaluate_derivative_quotient_witness :
  exists q,
    NURBS.evaluate_derivative (I := Sample.planar_segment)
      Sample.ready_curve (1 / 2) = Ret q /\
    length q = 2%nat /\
    coeff q 0 = 8 / 9 /\ coeff q 1 = 8 / 9.
Proof.
  destruct (evaluate_derivative_quotient (I := Sample.planar_segment)
              Sample.ready_curve (1 / 2)
              (Sample.lerp [0; 0; 1] [2; 2; 2] (1 / 2))
              [2 - 0; 2 - 0; 2 - 1]
              eq_refl eq_refl eq_refl eq_refl eq_refl)
    as (q & E & _ & L & Hq).
  - simpl. lra.
  - exists q. split; [exact E|]. split; [exact L|].
    split.
    + destruct (Hq 0%nat) as [-> _]; [simpl; lia|]. unfold coeff. simpl. lra.
    + destruct (Hq 1%nat) as [-> _]; [simpl; lia|]. unfold coeff. simpl. lra.
Defined.

Lemma stale_curve_queries_witness :
  (forall t,
     is_invalid_setting
       (NURBS.evaluate (I := Sample.planar_segment) Sample.raw_curve t)) /\
  (forall t,
     is_invalid_setting
       (NURBS.evaluate_derivative (I := Sample.planar_segment)
          Sample.raw_curve t)) /\
  (forall pt,
     NURBS.inverse_evaluate Sample.raw_curve pt =
     Throw (not_implemented_error "Too complex, sigh")).
Proof.
  destruct (stale_curve_queries (I := Sample.planar_segment) Sample.raw_curve)
    as (He & Hd & Hi & _).
  - left. simpl. discriminate.
  - left. reflexivity.
  - repeat split; assumption.
Defined.

(** C5 (as stated, refuted). The sample curve before [initialize] has no
    homogeneous control points but two physical ones, and on it
    [inverse_evaluate] does not throw [invalid_setting_error]: it throws
    [not_implemented_error]. *)
Lemma stale_inverse_evaluate_not_invalid_setting :
  NURBS.count_mismatch Sample.raw_curve /\
  NURBS.inverse_evaluate Sample.raw_curve [0; 0] =
    Throw (not_implemented_error "Too complex, sigh") /\
  ~ is_invalid_setting (NURBS.inverse_evaluate Sample.raw_curve [0; 0]).
Proof.
  split; [left; simpl; discriminate|].
  split; [reflexivity|].
  intros [msg H]. discriminate H.
Qed.

Lemma insert_knot_rederives_witness :
  exists c',
    NURBS.insert_knot (I := Sample.planar_segment) Sample.ready_curve (1 / 2) 1
      = (c', Ret tt) /\
    NURBS.m_control_points c' =
      [vdiv [0; 0] 1;
       vdiv (head 2 (Sample.lerp [0; 0; 1] [2; 2; 2] (1 / 2)))
            (coeff (Sample.lerp [0; 0; 1] [2; 2; 2] (1 / 2)) 2);
       vdiv [2; 2] 2] /\
    NURBS.m_weights c' =
      [1; coeff (Sample.lerp [0; 0; 1] [2; 2; 2] (1 / 2)) 2; 2] /\
    NURBS.m_knots c' = [0; 0; 1 / 2; 1; 1].
Proof.
  destruct (insert_knot_rederives (I := Sample.planar_segment)
              Sample.ready_curve (1 / 2) 1
              (NURBS.mkBSpline
                 [[0; 0; 1]; Sample.lerp [0; 0; 1] [2; 2; 2] (1 / 2); [2; 2; 2]]
                 [0; 0; 1 / 2; 1; 1]))
    as (c' & E & _ & Hp & Hw & Hk & _).
  - reflexivity.
  - reflexivity.
  - repeat constructor.
  - exists c'. repeat split; assumption.
Defined.

Lemma homogeneous_round_trip_witness :
  exists c2,
    NURBS.set_homogeneous (I := Sample.planar_segment)
      (fst (NURBS.initialize Sample.raw_curve))
      (NURBS.get_homogeneous (fst (NURBS.initialize Sample.raw_curve))) =
      (c2, Ret tt) /\
    NURBS.m_control_points c2 = [[0; 0]; [1; 1]] /\
    NURBS.m_weights c2 = [1; 2].
Proof.
  destruct (homogeneous_round_trip (I := Sample.planar_segment)
              Sample.raw_curve (fst (NURBS.initialize Sample.raw_curve)))
    as (c2 & E & Hp & Hw & _).
  - repeat constructor.
  - exact unit_weights_nonzero.
  - reflexivity.
  - exists c2. repeat split; assumption.
Defined.

(* ================================================================== *)
(** * Properties of the surface of revolution *)

(** *** Algebra of 3-vectors *)

Lemma epsilon_pos : 0 < epsilon.
Proof.
  unfold epsilon. apply Rinv_0_lt_compat. apply IZR_lt. reflexivity.
Qed.

Lemma TOL10_pos : 0 < RevolutionPatch.TOL10.
Proof. unfold RevolutionPatch.TOL10. pose proof epsilon_pos. lra. Qed.

Lemma Rgtb_true (a b : R) : b < a -> Rgtb a b = true.
Proof. intros H. unfold Rgtb. destruct (Rlt_dec b a); [reflexivity|contradiction]. Qed.

Lemma Rgtb_false (a b : R) : a <= b -> Rgtb a b = false.
Proof. intros H. unfold Rgtb. destruct (Rlt_dec b a); [lra|reflexivity]. Qed.

Lemma Rltb_true (a b : R) : a < b -> Rltb a b = true.
Proof. intros H. unfold Rltb. destruct (Rlt_dec a b); [reflexivity|contradiction]. Qed.

Lemma squaredNorm_nonneg (a : Vector3) : 0 <= squaredNorm a.
Proof.
  unfold squaredNorm, dot.
  pose proof (Rle_0_sqr (vx a)). pose proof (Rle_0_sqr (vy a)).
  pose proof (Rle_0_sqr (vz a)). unfold Rsqr in *. lra.
Qed.

Lemma norm_nonneg (a : Vector3) : 0 <= norm a.
Proof. apply sqrt_pos. Qed.

Lemma norm_mul_norm (a : Vector3) : norm a * norm a = squaredNorm a.
Proof. apply sqrt_sqrt, squaredNorm_nonneg. Qed.

Lemma norm_unit (a : Vector3) : norm a = 1 -> squaredNorm a = 1.
Proof. intros H. rewrite <- norm_mul_norm, H. ring. Qed.

Lemma dot_cross_left (a b : Vector3) : dot (cross a b) a = 0.
Proof. unfold dot, cross. simpl. ring. Qed.

(** Lagrange's identity. *)
Lemma squaredNorm_cross (a b : Vector3) :
  squaredNorm (cross a b) = squaredNorm a * squaredNorm b - dot b a * dot b a.
Proof. unfold squaredNorm, dot, cross. simpl. ring. Qed.

(** Pythagoras for the part of [w] orthogonal to [a]. *)
Lemma squaredNorm_rejection (a w : Vector3) :
  squaredNorm (w - smul3 (dot w a) a)%v3 =
  squaredNorm w - dot w a * dot w a * (2 - squaredNorm a).
Proof. unfold squaredNorm, dot, sub3, smul3. simpl. ring. Qed.

Lemma rejection_of_orthogonal (a d : Vector3) :
  dot d a = 0 -> (d - smul3 (dot d a) a)%v3 = d.
Proof.
  intros H. rewrite H. destruct d as [x y z].
  unfold sub3, smul3. simpl. f_equal; ring.
Qed.

Lemma normalized_unfold (d : Vector3) :
  0 < norm d -> normalized d = divs3 d (norm d).
Proof.
  intros H. unfold normalized.
  rewrite Rgtb_true; [reflexivity|].
  destruct (squaredNorm_nonneg d) as [Hp|Hz]; [exact Hp|].
  unfold norm in H. rewrite <- Hz, sqrt_0 in H. lra.
Qed.

Lemma divs3_muls3 (d : Vector3) (n : R) : n <> 0 -> muls3 (divs3 d n) n = d.
Proof.
  intros H. destruct d as [x y z]. unfold muls3, divs3. simpl.
  f_equal; field; exact H.
Qed.

(** Normalising and rescaling to the vector's own length is the identity. *)
Lemma normalized_rescaled (d : Vector3) :
  0 < norm d -> muls3 (normalized d) (norm d) = d.
Proof.
  intros H. rewrite normalized_unfold by exact H.
  apply divs3_muls3. lra.
Qed.

Section Patch_properties.

Import RevolutionPatch.

Lemma profile_present (p : RevolutionPatch) (c : ProfileType) :
  m_profile p = Some c ->
  assert_valid_profile p = Ret tt /\ profile p = Ret c.
Proof. unfold assert_valid_profile, profile. intros ->. auto. Qed.

(** In every state the mixed derivative is the axis crossed with the
    u-derivative, failing exactly as the u-derivative fails. *)
Lemma evaluate_2nd_derivative_uv_cross (p : RevolutionPatch) (u v : R) :
  evaluate_2nd_derivative_uv p u v =
  (du <- evaluate_derivative_u p u v ;; Ret (cross (row2 (m_frame p)) du)).
Proof.
  unfold evaluate_2nd_derivative_uv.
  assert (E : forall o : outcome Point,
             (assert_valid_profile p ;;; evaluate_derivative_u p u v) = o ->
             evaluate_derivative_u p u v = o).
  { unfold evaluate_derivative_u.
    destruct (assert_valid_profile p) as [[]| |]; simpl; auto. }
  destruct (assert_valid_profile p) as [[]| |] eqn:Ha; simpl.
  - destruct (evaluate_derivative_u p u v) as [du| |]; simpl; try reflexivity.
    rewrite rejection_of_orthogonal by apply dot_cross_left.
    unfold Rgtb. destruct (Rlt_dec TOL10 (norm (cross (row2 (m_frame p)) du)))
      as [Hgt|Hle]; [|reflexivity].
    rewrite normalized_rescaled; [reflexivity|].
    pose proof TOL10_pos. lra.
  - rewrite (E (Throw e)); reflexivity.
  - rewrite (E AssertFail); reflexivity.
Qed.

(** C10. With a profile set and a unit axis [frame.row(2)], where the
    profile's derivative is defined, [evaluate_2nd_derivative_uv] returns
    the axis crossed with what [evaluate_derivative_u] returns; the radius
    the code computes from that cross product is the cross product's own
    norm. *)
Theorem evaluate_2nd_derivative_uv_unit_axis
        (p : RevolutionPatch) (c : ProfileType) (u v : R) (dq : Point) :
  m_profile p = Some c ->
  norm (row2 (m_frame p)) = 1 ->
  CurveBase.evaluate_derivative c u = Ret dq ->
  exists du,
    evaluate_derivative_u p u v = Ret du /\
    evaluate_2nd_derivative_uv p u v = Ret (cross (row2 (m_frame p)) du) /\
    norm (cross (row2 (m_frame p)) du
          - smul3 (dot (cross (row2 (m_frame p)) du) (row2 (m_frame p)))
                  (row2 (m_frame p)))%v3
    = norm (cross (row2 (m_frame p)) du).
Proof.
  intros Hp _ Hd.
  destruct (profile_present p c Hp) as [Ha Hc].
  assert (Hu : evaluate_derivative_u p u v =
               Ret (rotate (mkAngleAxis v (row2 (m_frame p))) dq)).
  { unfold evaluate_derivative_u. rewrite Ha, Hc. simpl. rewrite Hd.
    reflexivity. }
  eexists. split; [exact Hu|]. split.
  - rewrite evaluate_2nd_derivative_uv_cross, Hu. reflexivity.
  - rewrite rejection_of_orthogonal by apply dot_cross_left. reflexivity.
Qed.

(** C8. With a profile set and a unit axis, where the profile evaluates,
    [evaluate] returns a point [pt] and, writing [w = pt - location],
    [d = axis x w] and [r] for the length of the part of [w] orthogonal to
    the axis (so [r^2 = |w|^2 - (w . axis)^2]): when [|d|] exceeds the
    tolerance, [evaluate_derivative_v] returns [d / |d| * r]; when [|d|] is
    at or below the tolerance it returns [d] itself.  It returns a value
    in both cases. *)
Theorem evaluate_derivative_v_rescaled
        (p : RevolutionPatch) (c : ProfileType) (u v : R) (q : Point) :
  m_profile p = Some c ->
  norm (row2 (m_frame p)) = 1 ->
  CurveBase.evaluate c u = Ret q ->
  exists pt,
    evaluate p u v = Ret pt /\
    let a := row2 (m_frame p) in
    let w := (pt - m_location p)%v3 in
    let d := cross a w in
    let r := norm (w - smul3 (dot w a) a)%v3 in
    0 <= r /\
    r * r = squaredNorm w - dot w a * dot w a /\
    (TOL10 < norm d ->
       evaluate_derivative_v p u v = Ret (muls3 (divs3 d (norm d)) r)) /\
    (norm d <= TOL10 -> evaluate_derivative_v p u v = Ret d).
Proof.
  intros Hp Hunit Hq.
  destruct (profile_present p c Hp) as [Ha Hc].
  assert (He : evaluate p u v =
               Ret (m_location p
                    + rotate (mkAngleAxis v (row2 (m_frame p)))
                             (q - m_location p))%v3).
  { unfold evaluate. rewrite Ha, Hc. simpl. rewrite Hq. reflexivity. }
  eexists. split; [exact He|]. cbv zeta.
  split; [apply norm_nonneg|]. split.
  - rewrite norm_mul_norm, squaredNorm_rejection, (norm_unit _ Hunit). ring.
  - unfold evaluate_derivative_v. rewrite Ha, He. simpl bind. cbv zeta.
    split; intros Hn.
    + rewrite (Rgtb_true _ _ Hn).
      rewrite normalized_unfold; [reflexivity|].
      pose proof TOL10_pos. lra.
    + rewrite (Rgtb_false _ _ Hn). reflexivity.
Qed.

(** With a unit axis the rescaling changes nothing in exact arithmetic:
    the derivative in [v] is the cross product in both branches. *)
Lemma evaluate_derivative_v_cross
      (p : RevolutionPatch) (u v : R) (pt : Point) :
  norm (row2 (m_frame p)) = 1 ->
  evaluate p u v = Ret pt ->
  evaluate_derivative_v p u v =
  Ret (cross (row2 (m_frame p)) (pt - m_location p)%v3).
Proof.
  intros Hunit He.
  assert (Ha : assert_valid_profile p = Ret tt).
  { unfold evaluate in He.
    destruct (assert_valid_profile p) as [[]| |]; simpl in He;
      try discriminate. reflexivity. }
  unfold evaluate_derivative_v. rewrite Ha, He. simpl bind. cbv zeta.
  unfold Rgtb. destruct (Rlt_dec _ _) as [Hn|Hn]; [|reflexivity].
  replace (norm ((pt - m_location p)
                 - smul3 (dot (pt - m_location p) (row2 (m_frame p)))
                         (row2 (m_frame p)))%v3)
    with (norm (cross (row2 (m_frame p)) (pt - m_location p)%v3)).
  - rewrite normalized_rescaled; [reflexivity|].
    pose proof TOL10_pos. lra.
  - unfold norm. f_equal.
    rewrite squaredNorm_cross, squaredNorm_rejection, (norm_unit _ Hunit).
    ring.
Qed.

(** *** The default-constructed patch *)

(** Under the constructor's frame and location the patch turns the profile
    point about the z-axis. *)
Lemma evaluate_default_frame (b0 : PatchBase) (c : ProfileType) (u v : R) :
  evaluate (set_profile (RevolutionPatch_ctor b0) (Some c)) u v =
  (q <- CurveBase.evaluate c u ;;
   Ret (vec3 (cos v * vx q - sin v * vy q)
             (sin v * vx q + cos v * vy q)
             (vz q))).
Proof.
  unfold evaluate. simpl.
  destruct (CurveBase.evaluate c u) as [[x y z]| |]; simpl; try reflexivity.
  f_equal. unfold rotate, mulMv, toRotationMatrix, dot, add3, sub3.
  simpl. f_equal; ring.
Qed.

(** C3 (amended). On a default-constructed patch (identity frame, zero
    location) whose profile passes through (1, 1/2, 0) at u = 1/2,
    [evaluate(1/2, pi/2)] returns (-1/2, 1, 0): the profile point turned by
    a quarter turn about the z-axis. *)
Theorem evaluate_quarter_turn (b0 : PatchBase) (c : ProfileType) :
  CurveBase.evaluate c (1 / 2) = Ret (vec3 1 (1 / 2) 0) ->
  evaluate (set_profile (RevolutionPatch_ctor b0) (Some c)) (1 / 2) (PI / 2)
  = Ret (vec3 (- (1 / 2)) 1 0).
Proof.
  intros H. rewrite evaluate_default_frame, H. simpl.
  rewrite cos_PI2, sin_PI2. f_equal. f_equal; field.
Qed.

(** *** Periodicity set by [initialize] *)

(** When [initialize] returns, and what it leaves. *)
Lemma initialize_returns (p : RevolutionPatch) (c : ProfileType) :
  m_profile p = Some c ->
  Rabs (squaredNorm (row0 (m_frame p)) - 1) < TOL10 ->
  Rabs (squaredNorm (row1 (m_frame p)) - 1) < TOL10 ->
  Rabs (squaredNorm (row2 (m_frame p)) - 1) < TOL10 ->
  Rabs (dot (row0 (m_frame p)) (row1 (m_frame p))) < TOL10 ->
  Rabs (dot (row1 (m_frame p)) (row2 (m_frame p))) < TOL10 ->
  Rabs (dot (row2 (m_frame p)) (row0 (m_frame p))) < TOL10 ->
  m_u_lower p < m_u_upper p ->
  m_v_lower p < m_v_upper p ->
  initialize p =
  (if Rgtb (m_v_upper p - m_v_lower p) (2 * M_PI - TOL10)
   then set_periodic_v (set_periodic_u p (CurveBase.get_periodic c)) true
   else set_periodic_u p (CurveBase.get_periodic c),
   Ret tt).
Proof.
  intros Hp H0 H1 H2 H01 H12 H20 Hu Hv.
  destruct (profile_present p c Hp) as [Ha Hc].
  unfold initialize. rewrite Ha, Hc.
  rewrite !Rltb_true, !Rgtb_true by assumption. simpl.
  destruct (Rgtb _ _); reflexivity.
Qed.

(** C9. When [initialize] returns, the patch is v-periodic afterwards
    exactly if it was v-periodic before or its v-span exceeds a full turn
    minus the tolerance.  So the flag is only ever set: a patch marked
    v-periodic stays marked when [initialize] runs again, whatever its
    v-bounds have become. *)
Theorem initialize_never_clears_periodic_v (p p' : RevolutionPatch) :
  initialize p = (p', Ret tt) ->
  (get_periodic_v (base p') = true <->
   get_periodic_v (base p) = true \/
   2 * M_PI - TOL10 < m_v_upper p - m_v_lower p) /\
  (get_periodic_v (base p) = true -> get_periodic_v (base p') = true).
Proof.
  unfold initialize. cbv zeta.
  match goal with
  | |- context [match ?chk with Ret _ => _ | Throw _ => _ | AssertFail => _ end] =>
      destruct chk as [c| |]
  end; try discriminate.
  simpl. unfold Rgtb.
  destruct (Rlt_dec (2 * M_PI - TOL10) (m_v_upper p - m_v_lower p))
    as [Hs|Hs]; intros E; inversion E; subst; clear E; simpl.
  - split; [split; auto|auto].
  - split; [split; [auto|intros [H|H]; [exact H|contradiction]]|auto].
Qed.

(** C2 (amended). On every revolution patch, [get_weight], [set_weight],
    [get_knot_u], [set_knot_u], [get_knot_v], [set_knot_v] and
    [get_control_point_preimage] throw [not_implemented_error] (the setters
    leaving the patch unchanged); the six counting accessors
    [get_num_weights_u/v], [get_num_knots_u/v] and
    [num_control_points_u/v] return 0. *)
Theorem accessor_surface (p : RevolutionPatch) (i j : Z) (val : R) :
  (is_not_implemented (get_weight p i j) /\
   is_not_implemented (snd (set_weight p i j val)) /\
   is_not_implemented (get_knot_u p i) /\
   is_not_implemented (snd (set_knot_u p i val)) /\
   is_not_implemented (get_knot_v p i) /\
   is_not_implemented (snd (set_knot_v p i val)) /\
   is_not_implemented (get_control_point_preimage p i j)) /\
  (fst (set_weight p i j val) = p /\
   fst (set_knot_u p i val) = p /\
   fst (set_knot_v p i val) = p) /\
  (get_num_weights_u p = Ret 0%Z /\
   get_num_weights_v p = Ret 0%Z /\
   get_num_knots_u p = Ret 0%Z /\
   get_num_knots_v p = Ret 0%Z /\
   num_control_points_u p = Ret 0%Z /\
   num_control_points_v p = Ret 0%Z).
Proof.
  repeat split; eexists; reflexivity.
Qed.

End Patch_properties.

(** *** The patch theorems on the sample patch *)

Lemma norm_ez : norm (vec3 0 0 1) = 1.
Proof.
  unfold norm, squaredNorm, dot. simpl.
  replace (0 * 0 + 0 * 0 + 1 * 1) with 1 by ring. apply sqrt_1.
Qed.

Lemma TOL10_lt_1 : RevolutionPatch.TOL10 < 1.
Proof.
  unfold RevolutionPatch.TOL10, epsilon.
  assert (H16 : 16 <= IZR (2 ^ 52)) by (apply IZR_le, Z.leb_le; reflexivity).
  assert (Hi : / IZR (2 ^ 52) <= / 16)
    by (apply Rinv_le_contravar; lra).
  lra.
Qed.

Lemma near_zero_lt_TOL10 (x : R) : x = 0 -> Rabs x < RevolutionPatch.TOL10.
Proof. intros ->. rewrite Rabs_R0. apply TOL10_pos. Qed.

Lemma initialize_line_patch :
  RevolutionPatch.initialize Sample.line_patch =
  (Sample.initialized_line_patch, Ret tt).
Proof.
  rewrite (initialize_returns Sample.line_patch Sample.line_profile);
    try reflexivity;
    try (apply near_zero_lt_TOL10; unfold squaredNorm, dot; simpl; ring).
  - rewrite Rgtb_true; [reflexivity|].
    simpl. pose proof TOL10_pos. lra.
  - simpl. lra.
  - simpl. unfold M_PI. pose proof PI_RGT_0. lra.
Qed.

Lemma narrowed_span_short :
  RevolutionPatch.m_v_upper Sample.narrowed_line_patch
  - RevolutionPatch.m_v_lower Sample.narrowed_line_patch
  <= 2 * M_PI - RevolutionPatch.TOL10.
Proof.
  simpl. unfold M_PI. pose proof PI2_1. pose proof TOL10_lt_1. lra.
Qed.

Lemma initialize_narrowed_line_patch :
  RevolutionPatch.initialize Sample.narrowed_line_patch =
  (RevolutionPatch.set_periodic_u Sample.narrowed_line_patch false, Ret tt).
Proof.
  rewrite (initialize_returns Sample.narrowed_line_patch Sample.line_profile);
    try reflexivity;
    try (apply near_zero_lt_TOL10; unfold squaredNorm, dot; simpl; ring).
  - rewrite Rgtb_false; [reflexivity|]. apply narrowed_span_short.
  - simpl. lra.
  - simpl. lra.
Qed.

Lemma evaluate_2nd_derivative_uv_unit_axis_witness :
  exists du,
    RevolutionPatch.evaluate_derivative_u Sample.line_patch (1 / 2) 0 = Ret du /\
    RevolutionPatch.evaluate_2nd_derivative_uv Sample.line_patch (1 / 2) 0 =
      Ret (cross (vec3 0 0 1) du).
Proof.
  destruct (evaluate_2nd_derivative_uv_unit_axis
              Sample.line_patch Sample.line_profile (1 / 2) 0 (vec3 0 1 0)
              eq_refl norm_ez eq_refl) as (du & Hu & Huv & _).
  exists du. split; assumption.
Defined.

Lemma evaluate_derivative_v_rescaled_witness :
  exists pt,
    RevolutionPatch.evaluate Sample.line_patch (1 / 2) 0 = Ret pt /\
    (norm (cross (vec3 0 0 1) (pt - Zero3)%v3) <= RevolutionPatch.TOL10 ->
     RevolutionPatch.evaluate_derivative_v Sample.line_patch (1 / 2) 0 =
       Ret (cross (vec3 0 0 1) (pt - Zero3)%v3)).
Proof.
  destruct (evaluate_derivative_v_rescaled
              Sample.line_patch Sample.line_profile (1 / 2) 0
              (vec3 1 (1 / 2) 0) eq_refl norm_ez eq_refl)
    as (pt & He & _ & _ & _ & Hle).
  exists pt. split; assumption.
Defined.

Lemma evaluate_quarter_turn_witness :
  RevolutionPatch.evaluate Sample.line_patch (1 / 2) (PI / 2)
  = Ret (vec3 (- (1 / 2)) 1 0).
Proof.
  exact (evaluate_quarter_turn Sample.fresh_base Sample.line_profile eq_refl).
Defined.

(** C3 (as stated, refuted). On the default-constructed patch with the
    line profile, [evaluate(1/2, pi/2)] is not (0, 1/2, 1). *)
Lemma quarter_turn_is_not_the_stated_point :
  RevolutionPatch.evaluate Sample.line_patch (1 / 2) (PI / 2)
  <> Ret (vec3 0 (1 / 2) 1).
Proof.
  unfold Sample.line_patch. rewrite evaluate_default_frame. simpl.
  rewrite cos_PI2, sin_PI2. intros H. inversion H. lra.
Qed.

(** The scenario: [initialize] marks the default patch v-periodic; its
    v-range is then narrowed to [0, 1], short of a full turn; [initialize]
    runs again and the patch is still marked v-periodic. *)
Lemma initialize_never_clears_periodic_v_witness :
  RevolutionPatch.initialize Sample.line_patch =
    (Sample.initialized_line_patch, Ret tt) /\
  RevolutionPatch.get_periodic_v
    (RevolutionPatch.base Sample.initialized_line_patch) = true /\
  RevolutionPatch.m_v_upper Sample.narrowed_line_patch
  - RevolutionPatch.m_v_lower Sample.narrowed_line_patch
  <= 2 * M_PI - RevolutionPatch.TOL10 /\
  RevolutionPatch.initialize Sample.narrowed_line_patch =
    (RevolutionPatch.set_periodic_u Sample.narrowed_line_patch false, Ret tt) /\
  RevolutionPatch.get_periodic_v
    (RevolutionPatch.base
       (RevolutionPatch.set_periodic_u Sample.narrowed_line_patch false))
  = true.
Proof.
  split; [exact initialize_line_patch|].
  split; [reflexivity|].
  split; [exact narrowed_span_short|].
  split; [exact initialize_narrowed_line_patch|].
  exact (proj2 (initialize_never_clears_periodic_v
                  Sample.narrowed_line_patch
                  (RevolutionPatch.set_periodic_u
                     Sample.narrowed_line_patch false)
                  initialize_narrowed_line_patch) eq_refl).
Defined.

(** C2 (as stated, refuted). [get_num_weights_u] does not fail: it returns
    0; so do the other five counting accessors. *)
Lemma counting_accessors_return :
  RevolutionPatch.get_num_weights_u Sample.line_patch = Ret 0%Z /\
  ~ is_not_implemented (RevolutionPatch.get_num_weights_u Sample.line_patch) /\
  ~ is_not_implemented (RevolutionPatch.get_num_weights_v Sample.line_patch) /\
  ~ is_not_implemented (RevolutionPatch.get_num_knots_u Sample.line_patch) /\
  ~ is_not_implemented (RevolutionPatch.get_num_knots_v Sample.line_patch) /\
  ~ is_not_implemented (RevolutionPatch.num_control_points_u Sample.line_patch) /\
  ~ is_not_implemented (RevolutionPatch.num_control_points_v Sample.line_patch).
Proof.
  split; [reflexivity|].
  repeat split; intros [msg H]; discriminate H.
Qed.

(* ================================================================== *)
(** * Further properties of the rational curve *)

Section NURBS_behaviour.

Import NURBS.
Context {I : Instantiation}.

Lemma rows_hstack (L : Matrix) (w : Vector) :
  rows L = length w -> rows (hstack L w) = rows L.
Proof.
  unfold rows. revert w.
  induction L as [|r L IH]; intros [|wi w] H; simpl in *;
    try discriminate; auto.
Qed.

Lemma count_guard_passes (c : NURBS) :
  rows (get_control_points (m_bspline_homogeneous c)) = rows (m_control_points c) ->
  rows (get_control_points (m_bspline_homogeneous c)) = length (m_weights c) ->
  validate_initialization c = validate_curve (m_control_points c) (m_knots c).
Proof.
  intros H1 H2. unfold validate_initialization.
  rewrite <- H1, <- H2, Nat.eqb_refl. apply bind_unit_ret.
Qed.

Lemma segment_0 (n : nat) (v : Vector) : segment n 0 v = head n v.
Proof. reflexivity. Qed.

(** X1. On an initialized curve, where the homogeneous curve evaluates to a
    vector [p] of [dim+1] entries, [evaluate] returns the [dim] leading
    entries of [p], each divided by the last one. *)
Theorem evaluate_projects (c : NURBS) (t : R) (p : Vector) :
  validate_initialization c = Ret tt ->
  bspline_evaluate (m_bspline_homogeneous c) t = Ret p ->
  length p = S dim ->
  exists q,
    evaluate c t = Ret q /\
    length q = dim /\
    forall i, (i < dim)%nat -> coeff q i = coeff p i / last p 0.
Proof.
  intros Hv Hp Lp. rewrite (last_coeff dim p Lp).
  exists (vdiv (head dim p) (coeff p dim)). split; [|split].
  - unfold evaluate. rewrite Hv, Hp. reflexivity.
  - rewrite length_vdiv, length_head; lia.
  - intros i Hi. rewrite coeff_vdiv, coeff_head by exact Hi. reflexivity.
Qed.

(** X2. Where the last homogeneous coordinate is not zero, the derivative
    of the rational curve is obtained from its value: entry [i] of
    [evaluate_derivative(t)] is [(d_i - q_i * d_last) / p_last], with [q]
    what [evaluate(t)] returns. *)
Theorem evaluate_derivative_from_value (c : NURBS) (t : R) (p d : Vector) :
  validate_initialization c = Ret tt ->
  bspline_evaluate (m_bspline_homogeneous c) t = Ret p ->
  bspline_evaluate_derivative (m_bspline_homogeneous c) t = Ret d ->
  length p = S dim -> length d = S dim ->
  last p 0 <> 0 ->
  exists q q',
    evaluate c t = Ret q /\
    evaluate_derivative c t = Ret q' /\
    forall i, (i < dim)%nat ->
      coeff q' i = (coeff d i - coeff q i * last d 0) / last p 0.
Proof.
  intros Hv Hp Hd Lp Ld Hne.
  rewrite (last_coeff dim p Lp) in *. rewrite (last_coeff dim d Ld).
  exists (vdiv (head dim p) (coeff p dim)).
  eexists. split; [|split].
  - unfold evaluate. rewrite Hv, Hp. reflexivity.
  - unfold evaluate_derivative. rewrite Hv, Hp, Hd. reflexivity.
  - intros i Hi.
    rewrite coeff_vdiv, coeff_vsub.
    + rewrite !coeff_vdiv, coeff_vscale, !coeff_head by lia.
      field. exact Hne.
    + rewrite length_head; lia.
    + rewrite length_vdiv, length_vscale, length_head; lia.
Qed.

(** X3. When [initialize] returns it has changed nothing but the
    homogeneous copy, whose knots are the curve's knots; the count guard of
    [validate_initialization] then passes, so that the validation ends the
    way the base-class check does. *)
Theorem initialize_establishes_counts (c c1 : NURBS) :
  initialize c = (c1, Ret tt) ->
  m_control_points c1 = m_control_points c /\
  m_weights c1 = m_weights c /\
  m_knots c1 = m_knots c /\
  get_knots (m_bspline_homogeneous c1) = m_knots c /\
  rows (get_control_points (m_bspline_homogeneous c1)) = rows (m_control_points c) /\
  ~ count_mismatch c1 /\
  validate_initialization c1 = validate_curve (m_control_points c) (m_knots c).
Proof.
  intros Hi. destruct (initialize_ok c c1 Hi) as [Hl ->].
  assert (Hr : rows (hstack (colwise_mul (m_control_points c) (m_weights c))
                            (m_weights c)) = rows (m_control_points c)).
  { rewrite rows_hstack; rewrite rows_colwise_mul; auto. }
  repeat split; try exact Hr.
  - unfold count_mismatch. simpl. rewrite Hr. intros [H|H]; contradiction.
  - match goal with
    | |- validate_initialization ?x = _ => apply (count_guard_passes x)
    end; simpl; rewrite Hr; auto.
Qed.

Lemma nth_hstack (L : Matrix) (w : Vector) (i : nat) :
  (i < rows L)%nat -> rows L = length w ->
  nth i (hstack L w) [] = nth i L [] ++ [coeff w i].
Proof.
  unfold rows, coeff. revert w i.
  induction L as [|r L IH]; intros [|wi w] i Hi Hl; simpl in *;
    try lia; try discriminate.
  destruct i as [|i]; [reflexivity|]. apply IH; lia.
Qed.

Lemma nth_colwise_mul (M : Matrix) (w : Vector) (i : nat) :
  (i < rows M)%nat -> rows M = length w ->
  nth i (colwise_mul M w) [] = vscale (nth i M []) (coeff w i).
Proof.
  unfold rows, coeff. revert w i.
  induction M as [|r M IH]; intros [|wi w] i Hi Hl; simpl in *;
    try lia; try discriminate.
  destruct i as [|i]; [reflexivity|]. apply IH; lia.
Qed.

Lemma has_cols_nth (n : nat) (M : Matrix) (i : nat) :
  has_cols n M -> (i < rows M)%nat -> length (nth i M []) = n.
Proof.
  unfold has_cols, rows. intros H Hi.
  rewrite Forall_forall in H. apply H. apply nth_In. exact Hi.
Qed.

Lemma has_cols_lift (n : nat) (M : Matrix) (w : Vector) :
  has_cols n M -> rows M = length w ->
  has_cols (S n) (hstack (colwise_mul M w) w).
Proof.
  unfold has_cols, rows. intros HM. revert w.
  induction HM as [|r M Hr _ IH]; intros [|wi w] Hl; simpl in *;
    try discriminate; constructor.
  - rewrite length_app, length_vscale, Hr. simpl. lia.
  - apply IH. lia.
Qed.

(** X4. [initialize] lifts to homogeneous coordinates: row [i] of the
    homogeneous control points is the physical control point [i] with every
    coordinate multiplied by weight [i], followed by weight [i]; each row
    has [dim+1] entries. *)
Theorem initialize_lifts (c c1 : NURBS) :
  has_cols dim (m_control_points c) ->
  initialize c = (c1, Ret tt) ->
  has_cols (S dim) (get_control_points (m_bspline_homogeneous c1)) /\
  forall i, (i < rows (m_control_points c))%nat ->
    coeff (nth i (get_control_points (m_bspline_homogeneous c1)) []) dim
      = coeff (m_weights c) i /\
    forall j, (j < dim)%nat ->
      coeff (nth i (get_control_points (m_bspline_homogeneous c1)) []) j
      = coeff (nth i (m_control_points c) []) j * coeff (m_weights c) i.
Proof.
  intros Hc Hi. destruct (initialize_ok c c1 Hi) as [Hl ->]. simpl.
  assert (Hl' : rows (colwise_mul (m_control_points c) (m_weights c))
                = length (m_weights c))
    by (rewrite rows_colwise_mul; assumption).
  split.
  - apply has_cols_lift; assumption.
  - intros i Hlt.
    rewrite nth_hstack;
      [|rewrite rows_colwise_mul; assumption|exact Hl'].
    rewrite nth_colwise_mul by assumption.
    pose proof (has_cols_nth dim _ i Hc Hlt) as Hn.
    split.
    + unfold coeff at 1. rewrite app_nth2; rewrite length_vscale, Hn; [|lia].
      rewrite Nat.sub_diag. reflexivity.
    + intros j Hj. unfold coeff at 1.
      rewrite app_nth1 by (rewrite length_vscale, Hn; exact Hj).
      apply coeff_vscale.
Qed.

(** X5. Running [initialize] a second time changes nothing. *)
Theorem initialize_idempotent (c c1 : NURBS) :
  initialize c = (c1, Ret tt) -> initialize c1 = (c1, Ret tt).
Proof.
  intros Hi. destruct (initialize_ok c c1 Hi) as [Hl ->].
  unfold initialize. simpl. rewrite Hl, Nat.eqb_refl. reflexivity.
Qed.

(** X6. On a curve whose counts do not match, [insert_knot] never returns
    and leaves the whole object, homogeneous copy included, as it was; when
    the base-class check passes it throws [invalid_setting_error]. *)
Theorem insert_knot_stale (c : NURBS) (t : R) (multiplicity : Z) :
  count_mismatch c ->
  fst (insert_knot c t multiplicity) = c /\
  ~ returns (snd (insert_knot c t multiplicity)) /\
  (validate_curve (m_control_points c) (m_knots c) = Ret tt ->
   snd (insert_knot c t multiplicity) =
   Throw (invalid_setting_error "NURBS curve is not initialized.")).
Proof.
  intros Hm.
  pose proof (validate_initialization_mismatch_never_passes c Hm) as N.
  pose proof (validate_initialization_mismatch c Hm) as E.
  unfold insert_knot.
  destruct (validate_initialization c) as [[]| |]; simpl.
  - contradiction N; reflexivity.
  - repeat split.
    + intros [a Ha]; discriminate.
    + intros Hok. apply E, Hok.
  - repeat split.
    + intros [a Ha]; discriminate.
    + intros Hok. apply E, Hok.
Qed.

(** X7. A knot insertion that returns leaves a curve whose three counts
    agree: the count guard passes and validation ends the way the
    base-class check does on the re-derived control points and knots. *)
Theorem insert_knot_keeps_counts (c c' : NURBS) (t : R) (multiplicity : Z) :
  insert_knot c t multiplicity = (c', Ret tt) ->
  ~ count_mismatch c' /\
  validate_initialization c' =
  validate_curve (m_control_points c') (m_knots c').
Proof.
  unfold insert_knot.
  destruct (validate_initialization c) as [[]| |]; try discriminate.
  destruct (bspline_insert_knot _ _ _) as [h [[]| |]]; try discriminate.
  intros E. inversion E; subst; clear E.
  assert (Hr : rows (colwise_div (leftCols dim (get_control_points h))
                                 (col dim (get_control_points h)))
               = rows (get_control_points h)).
  { rewrite rows_colwise_div; rewrite rows_leftCols;
      [reflexivity | symmetry; apply length_col]. }
  split.
  - unfold count_mismatch. simpl. rewrite Hr, length_col.
    intros [H|H]; contradiction.
  - apply count_guard_passes; simpl; rewrite ?Hr, ?length_col; reflexivity.
Qed.

(** X8. [set_homogeneous] overwrites every member, so its result does not
    depend on the state it is called on; the three counts of the result
    always agree, the count guard never throws, and the call ends the way
    the base-class check does on the derived control points and knots. *)
Theorem set_homogeneous_counts (c c0 : NURBS) (h : BSplineHomogeneous) :
  set_homogeneous c0 h = set_homogeneous c h /\
  get_homogeneous (fst (set_homogeneous c h)) = h /\
  m_knots (fst (set_homogeneous c h)) = get_knots h /\
  m_weights (fst (set_homogeneous c h)) = rightCols1 (get_control_points h) /\
  rows (m_control_points (fst (set_homogeneous c h)))
    = rows (get_control_points h) /\
  ~ count_mismatch (fst (set_homogeneous c h)) /\
  snd (set_homogeneous c h) =
    validate_curve (m_control_points (fst (set_homogeneous c h)))
                   (m_knots (fst (set_homogeneous c h))).
Proof.
  assert (Hr : rows (colwise_div (leftCols dim (get_control_points h))
                                 (rightCols1 (get_control_points h)))
               = rows (get_control_points h)).
  { rewrite rows_colwise_div; rewrite rows_leftCols;
      [reflexivity | symmetry; apply length_rightCols1]. }
  unfold set_homogeneous, get_homogeneous. cbn [fst snd].
  repeat split; try exact Hr.
  - unfold count_mismatch. simpl. rewrite Hr, length_rightCols1.
    intros [H|H]; contradiction.
  - match goal with
    | |- validate_initialization ?x = _ => apply (count_guard_passes x)
    end; simpl; rewrite ?Hr, ?length_rightCols1; reflexivity.
Qed.

(** X9. The reverse round trip: after [set_homogeneous(h)] with [h] having
    [dim+1] columns and a trailing column without zeros, [initialize]
    rebuilds exactly [h] and changes nothing. *)
Theorem set_homogeneous_then_initialize (c : NURBS) (h : BSplineHomogeneous) :
  has_cols (S dim) (get_control_points h) ->
  Forall (fun x => x <> 0) (rightCols1 (get_control_points h)) ->
  initialize (fst (set_homogeneous c h)) = (fst (set_homogeneous c h), Ret tt) /\
  get_homogeneous (fst (initialize (fst (set_homogeneous c h)))) = h.
Proof.
  intros Hc Hw.
  assert (E : initialize (fst (set_homogeneous c h))
              = (fst (set_homogeneous c h), Ret tt)).
  { unfold set_homogeneous, initialize. cbn [fst m_control_points m_weights
      m_knots m_bspline_homogeneous].
    rewrite rows_colwise_div;
      rewrite rows_leftCols, ?length_rightCols1, ?Nat.eqb_refl;
      [|reflexivity].
    rewrite (lift_of_projection dim _ Hc Hw).
    unfold set_knots, set_control_points. simpl.
    destruct h; reflexivity. }
  split; [exact E|]. rewrite E. reflexivity.
Qed.

Lemma validate_initialization_set_weights (c : NURBS) (w : Vector) :
  length w = length (m_weights c) ->
  validate_initialization (set_weights c w) = validate_initialization c.
Proof.
  intros Hl. unfold validate_initialization, set_weights. simpl.
  rewrite Hl. reflexivity.
Qed.

(** X10. [set_weights] does not touch the homogeneous copy: with as many
    new weights as before, every forward query answers exactly as it did
    with the old weights, until [initialize] is run again. *)
Theorem set_weights_same_count_is_stale (c : NURBS) (w : Vector) (t : R) :
  length w = length (m_weights c) ->
  evaluate (set_weights c w) t = evaluate c t /\
  evaluate_derivative (set_weights c w) t = evaluate_derivative c t /\
  get_homogeneous (set_weights c w) = get_homogeneous c.
Proof.
  intros Hl. unfold evaluate, evaluate_derivative.
  rewrite (validate_initialization_set_weights c w Hl).
  repeat split.
Qed.

(** X11. Changing the number of weights of an initialized curve makes it
    stale: the forward queries throw [invalid_setting_error] and
    [insert_knot] throws it too, leaving the curve as it is. *)
Theorem set_weights_other_count_invalidates
        (c : NURBS) (w : Vector) (t : R) (multiplicity : Z) :
  validate_initialization c = Ret tt ->
  length w <> length (m_weights c) ->
  evaluate (set_weights c w) t =
    Throw (invalid_setting_error "NURBS curve is not initialized.") /\
  evaluate_derivative (set_weights c w) t =
    Throw (invalid_setting_error "NURBS curve is not initialized.") /\
  insert_knot (set_weights c w) t multiplicity =
    (set_weights c w,
     Throw (invalid_setting_error "NURBS curve is not initialized.")).
Proof.
  intros Hv Hl.
  destruct (validate_initialization_ok c Hv) as (Hok & H1 & H2).
  assert (E : validate_initialization (set_weights c w) =
              Throw (invalid_setting_error "NURBS curve is not initialized.")).
  { apply validate_initialization_mismatch.
    - right. unfold set_weights. simpl. rewrite H2. auto.
    - exact Hok. }
  unfold evaluate, evaluate_derivative, insert_knot. rewrite E.
  repeat split.
Qed.

End NURBS_behaviour.

(** *** The further curve properties on the sample segment *)

Lemma evaluate_projects_witness :
  exists q,
    NURBS.evaluate (I := Sample.planar_segment) Sample.ready_curve (1 / 2)
      = Ret q /\
    coeff q 0 = 2 / 3 /\ coeff q 1 = 2 / 3.
Proof.
  destruct (evaluate_projects (I := Sample.planar_segment)
              Sample.ready_curve (1 / 2)
              (Sample.lerp [0; 0; 1] [2; 2; 2] (1 / 2))
              eq_refl eq_refl eq_refl)
    as (q & E & _ & Hq).
  exists q. split; [exact E|]. split.
  - rewrite (Hq 0%nat) by (simpl; lia). unfold coeff. simpl. lra.
  - rewrite (Hq 1%nat) by (simpl; lia). unfold coeff. simpl. lra.
Defined.

Lemma evaluate_derivative_from_value_witness :
  exists q q',
    NURBS.evaluate (I := Sample.planar_segment) Sample.ready_curve (1 / 2)
      = Ret q /\
    NURBS.evaluate_derivative (I := Sample.planar_segment)
      Sample.ready_curve (1 / 2) = Ret q' /\
    coeff q' 0 = (2 - coeff q 0 * 1) / (3 / 2).
Proof.
  destruct (evaluate_derivative_from_value (I := Sample.planar_segment)
              Sample.ready_curve (1 / 2)
              (Sample.lerp [0; 0; 1] [2; 2; 2] (1 / 2))
              [2 - 0; 2 - 0; 2 - 1]
              eq_refl eq_refl eq_refl eq_refl eq_refl)
    as (q & q' & E & E' & Hq).
  - simpl. lra.
  - exists q, q'. split; [exact E|]. split; [exact E'|].
    rewrite (Hq 0%nat) by (simpl; lia). unfold coeff. simpl.
    replace (2 - 0) with 2 by lra. replace (2 - 1) with 1 by lra.
    replace ((1 - 1 / 2) * 1 + 1 / 2 * 2) with (3 / 2) by lra.
    reflexivity.
Defined.

Lemma initialize_establishes_counts_witness :
  ~ NURBS.count_mismatch (fst (NURBS.initialize Sample.raw_curve)) /\
  NURBS.validate_initialization (I := Sample.planar_segment)
    (fst (NURBS.initialize Sample.raw_curve)) = Ret tt.
Proof.
  destruct (initialize_establishes_counts (I := Sample.planar_segment)
              Sample.raw_curve (fst (NURBS.initialize Sample.raw_curve))
              eq_refl)
    as (_ & _ & _ & _ & _ & Hm & Hv).
  split; [exact Hm | exact Hv].
Defined.

Lemma initialize_lifts_witness :
  coeff (nth 1 (NURBS.get_control_points
                  (NURBS.m_bspline_homogeneous
                     (fst (NURBS.initialize Sample.raw_curve)))) []) 2 = 2 /\
  coeff (nth 1 (NURBS.get_control_points
                  (NURBS.m_bspline_homogeneous
                     (fst (NURBS.initialize Sample.raw_curve)))) []) 0 = 1 * 2.
Proof.
  destruct (initialize_lifts (I := Sample.planar_segment)
              Sample.raw_curve (fst (NURBS.initialize Sample.raw_curve)))
    as (_ & H).
  - repeat constructor.
  - reflexivity.
  - destruct (H 1%nat) as [Hw Hx]; [simpl; lia|].
    split; [exact Hw|]. apply (Hx 0%nat). simpl; lia.
Defined.

Lemma initialize_idempotent_witness :
  NURBS.initialize (fst (NURBS.initialize Sample.raw_curve)) =
  (fst (NURBS.initialize Sample.raw_curve), Ret tt).
Proof.
  exact (initialize_idempotent Sample.raw_curve
           (fst (NURBS.initialize Sample.raw_curve)) eq_refl).
Defined.

Lemma insert_knot_stale_witness :
  NURBS.insert_knot (I := Sample.planar_segment) Sample.raw_curve (1 / 2) 1 =
  (Sample.raw_curve,
   Throw (invalid_setting_error "NURBS curve is not initialized.")).
Proof.
  destruct (insert_knot_stale (I := Sample.planar_segment)
              Sample.raw_curve (1 / 2) 1) as (Hs & _ & Ho).
  - left. simpl. discriminate.
  - rewrite (surjective_pairing (NURBS.insert_knot _ _ _)).
    rewrite Hs, (Ho eq_refl). reflexivity.
Defined.

Lemma insert_knot_keeps_counts_witness :
  ~ NURBS.count_mismatch
      (fst (NURBS.insert_knot (I := Sample.planar_segment)
              Sample.ready_curve (1 / 2) 1)).
Proof.
  exact (proj1 (insert_knot_keeps_counts (I := Sample.planar_segment)
                  Sample.ready_curve _ (1 / 2) 1 eq_refl)).
Defined.

Lemma sample_homogeneous_nonzero :
  Forall (fun x : R => x <> 0) (rightCols1 [[0; 0; 1]; [2; 2; 2]]).
Proof. unfold rightCols1, coeff. simpl. repeat (apply Forall_cons; [lra|]). apply Forall_nil. Defined.

Lemma set_homogeneous_then_initialize_witness :
  NURBS.get_homogeneous
    (fst (NURBS.initialize
            (fst (NURBS.set_homogeneous (I := Sample.planar_segment)
                    Sample.raw_curve
                    (NURBS.mkBSpline [[0; 0; 1]; [2; 2; 2]] [0; 0; 1; 1])))))
  = NURBS.mkBSpline [[0; 0; 1]; [2; 2; 2]] [0; 0; 1; 1].
Proof.
  refine (proj2 (set_homogeneous_then_initialize (I := Sample.planar_segment)
                   Sample.raw_curve
                   (NURBS.mkBSpline [[0; 0; 1]; [2; 2; 2]] [0; 0; 1; 1])
                   _ sample_homogeneous_nonzero)).
  repeat constructor.
Defined.

Lemma inserted_weights_nonzero :
  Forall (fun x : R => x <> 0)
    (rightCols1
       [[0; 0; 1]; Sample.lerp [0; 0; 1] [2; 2; 2] (1 / 2); [2; 2; 2]]).
Proof. unfold rightCols1, coeff. simpl. repeat (apply Forall_cons; [lra|]). apply Forall_nil. Defined.

Lemma insert_knot_then_initialize_witness :
  NURBS.initialize
    (fst (NURBS.insert_knot (I := Sample.planar_segment)
            Sample.ready_curve (1 / 2) 1))
  = (fst (NURBS.insert_knot (I := Sample.planar_segment)
            Sample.ready_curve (1 / 2) 1), Ret tt).
Proof.
  refine (insert_knot_then_initialize (I := Sample.planar_segment)
            Sample.ready_curve _ (1 / 2) 1 eq_refl _
            inserted_weights_nonzero).
  repeat constructor.
Defined.

Lemma set_weights_same_count_is_stale_witness :
  NURBS.evaluate (I := Sample.planar_segment)
    (NURBS.set_weights Sample.ready_curve [3; 4]) (1 / 2)
  = NURBS.evaluate (I := Sample.planar_segment) Sample.ready_curve (1 / 2).
Proof.
  exact (proj1 (set_weights_same_count_is_stale (I := Sample.planar_segment)
                  Sample.ready_curve [3; 4] (1 / 2) eq_refl)).
Defined.

Lemma set_weights_other_count_invalidates_witness :
  NURBS.evaluate (I := Sample.planar_segment)
    (NURBS.set_weights Sample.ready_curve [1; 2; 3]) (1 / 2)
  = Throw (invalid_setting_error "NURBS curve is not initialized.").
Proof.
  refine (proj1 (set_weights_other_count_invalidates
                   (I := Sample.planar_segment)
                   Sample.ready_curve [1; 2; 3] (1 / 2) 1 eq_refl _)).
  simpl. discriminate.
Defined.

(* ================================================================== *)
(** * Further properties of the surface of revolution *)

(** *** The rotation of [Eigen::AngleAxis] *)

(** Rodrigues' formula in vector form. *)
Lemma rotate_rodrigues (r : AngleAxis) (w : Vector3) :
  rotate r w =
  (smul3 (cos (m_angle r)) w
   + smul3 (sin (m_angle r)) (cross (m_axis r) w)
   + smul3 ((1 - cos (m_angle r)) * dot (m_axis r) w) (m_axis r))%v3.
Proof.
  unfold rotate, mulMv, toRotationMatrix, dot, cross, add3, smul3. simpl.
  f_equal; ring.
Qed.

Lemma rotate_zero (a w : Vector3) : rotate (mkAngleAxis 0 a) w = w.
Proof.
  rewrite rotate_rodrigues. simpl. rewrite sin_0, cos_0.
  destruct w as [x y z]. unfold add3, smul3, cross, dot. simpl.
  f_equal; ring.
Qed.

Lemma rotate_period (v : R) (a w : Vector3) :
  rotate (mkAngleAxis (v + 2 * PI) a) w = rotate (mkAngleAxis v a) w.
Proof.
  rewrite !rotate_rodrigues. simpl.
  rewrite sin_plus, cos_plus, sin_2PI, cos_2PI.
  unfold add3, smul3, cross, dot. simpl. f_equal; ring.
Qed.

Lemma squaredNorm_rotate (r : AngleAxis) (w : Vector3) :
  squaredNorm (m_axis r) = 1 ->
  squaredNorm (rotate r w) = squaredNorm w.
Proof.
  intros Ha.
  pose proof (sin2_cos2 (m_angle r)) as Hsc. unfold Rsqr in Hsc.
  assert (E : squaredNorm (rotate r w) =
              squaredNorm w
              + (cos (m_angle r) * cos (m_angle r)
                 + sin (m_angle r) * sin (m_angle r) * squaredNorm (m_axis r)
                 - 1) * squaredNorm w
              + dot (m_axis r) w * dot (m_axis r) w
                * ((1 - cos (m_angle r)) * (1 - cos (m_angle r))
                     * squaredNorm (m_axis r)
                   + 2 * cos (m_angle r) * (1 - cos (m_angle r))
                   - sin (m_angle r) * sin (m_angle r))).
  { rewrite rotate_rodrigues.
    unfold squaredNorm, dot, cross, add3, smul3. simpl. ring. }
  rewrite E, Ha.
  transitivity
    (squaredNorm w
     + (sin (m_angle r) * sin (m_angle r) + cos (m_angle r) * cos (m_angle r)
        - 1)
       * (squaredNorm w - dot (m_axis r) w * dot (m_axis r) w));
    [ring | rewrite Hsc; ring].
Qed.

Lemma dot_rotate_axis (r : AngleAxis) (w : Vector3) :
  squaredNorm (m_axis r) = 1 ->
  dot (rotate r w) (m_axis r) = dot w (m_axis r).
Proof.
  intros Ha.
  assert (E : dot (rotate r w) (m_axis r) =
              dot w (m_axis r)
              * (cos (m_angle r)
                 + (1 - cos (m_angle r)) * squaredNorm (m_axis r))).
  { rewrite rotate_rodrigues.
    unfold squaredNorm, dot, cross, add3, smul3. simpl. ring. }
  rewrite E, Ha. ring.
Qed.

Lemma add3_sub3_cancel (l x : Vector3) : (l + x - l)%v3 = x.
Proof. destruct l, x. unfold add3, sub3. simpl. f_equal; ring. Qed.

Lemma add3_sub3_same (l x : Vector3) : (l + (x - l))%v3 = x.
Proof. destruct l, x. unfold add3, sub3. simpl. f_equal; ring. Qed.

Lemma cross_cross (a w : Vector3) :
  cross a (cross a w) = (smul3 (dot w a) a - smul3 (squaredNorm a) w)%v3.
Proof.
  unfold cross, squaredNorm, dot, sub3, smul3. simpl. f_equal; ring.
Qed.

Lemma dot_rescaled (d x : Vector3) (n r : R) :
  dot (muls3 (divs3 d n) r) x = dot d x * / n * r.
Proof. unfold dot, muls3, divs3, Rdiv. simpl. ring. Qed.

Lemma norm_rescaled (d : Vector3) (r : R) :
  0 < norm d -> 0 <= r -> norm (muls3 (divs3 d (norm d)) r) = r.
Proof.
  intros Hn Hr.
  assert (E : squaredNorm (muls3 (divs3 d (norm d)) r) = r * r).
  { transitivity (squaredNorm d * (/ norm d * / norm d) * (r * r)).
    - unfold squaredNorm, dot, muls3, divs3, Rdiv. simpl. ring.
    - rewrite <- norm_mul_norm. field. lra. }
  unfold norm at 1. rewrite E. apply sqrt_square. exact Hr.
Qed.

Section Patch_behaviour.

Import RevolutionPatch.

Lemma evaluate_value (p : RevolutionPatch) (c : ProfileType) (u v : R)
      (q : Point) :
  m_profile p = Some c ->
  CurveBase.evaluate c u = Ret q ->
  evaluate p u v =
  Ret (m_location p
       + rotate (mkAngleAxis v (row2 (m_frame p))) (q - m_location p))%v3.
Proof.
  intros Hp Hq. destruct (profile_present p c Hp) as [Ha Hc].
  unfold evaluate. rewrite Ha, Hc. simpl. rewrite Hq. reflexivity.
Qed.

(** X12. Without a profile every forward query throws
    [invalid_setting_error] and so does [initialize], which leaves the
    patch as it is. *)
Theorem null_profile_queries (p : RevolutionPatch) (u v : R) :
  m_profile p = None ->
  evaluate p u v = Throw (invalid_setting_error "Profile not set!") /\
  evaluate_derivative_u p u v =
    Throw (invalid_setting_error "Profile not set!") /\
  evaluate_derivative_v p u v =
    Throw (invalid_setting_error "Profile not set!") /\
  evaluate_2nd_derivative_uu p u v =
    Throw (invalid_setting_error "Profile not set!") /\
  evaluate_2nd_derivative_vv p u v =
    Throw (invalid_setting_error "Profile not set!") /\
  evaluate_2nd_derivative_uv p u v =
    Throw (invalid_setting_error "Profile not set!") /\
  initialize p = (p, Throw (invalid_setting_error "Profile not set!")).
Proof.
  intros Hp.
  unfold evaluate, evaluate_derivative_u, evaluate_derivative_v,
    evaluate_2nd_derivative_uu, evaluate_2nd_derivative_vv,
    evaluate_2nd_derivative_uv, initialize, assert_valid_profile.
  rewrite Hp. simpl. repeat split.
Qed.

(** X13. At angle 0 the patch is its profile: [evaluate(u, 0)],
    [evaluate_derivative_u(u, 0)] and [evaluate_2nd_derivative_uu(u, 0)]
    end exactly as the profile's [evaluate(u)], [evaluate_derivative(u)]
    and [evaluate_2nd_derivative(u)] do, whatever the frame and location. *)
Theorem zero_angle_is_profile (p : RevolutionPatch) (c : ProfileType) (u : R) :
  m_profile p = Some c ->
  evaluate p u 0 = CurveBase.evaluate c u /\
  evaluate_derivative_u p u 0 = CurveBase.evaluate_derivative c u /\
  evaluate_2nd_derivative_uu p u 0 = CurveBase.evaluate_2nd_derivative c u.
Proof.
  intros Hp. destruct (profile_present p c Hp) as [Ha Hc].
  unfold evaluate, evaluate_derivative_u, evaluate_2nd_derivative_uu.
  rewrite Ha, Hc. simpl.
  destruct (CurveBase.evaluate c u) as [q| |];
  destruct (CurveBase.evaluate_derivative c u) as [d| |];
  destruct (CurveBase.evaluate_2nd_derivative c u) as [dd| |];
  simpl; rewrite ?rotate_zero, ?add3_sub3_same; repeat split.
Qed.

Lemma evaluate_period (p : RevolutionPatch) (u v : R) :
  evaluate p u (v + 2 * PI) = evaluate p u v.
Proof.
  unfold evaluate.
  destruct (assert_valid_profile p) as [[]| |]; simpl; try reflexivity.
  destruct (profile p) as [c| |]; simpl; try reflexivity.
  destruct (CurveBase.evaluate c u) as [q| |]; simpl; try reflexivity.
  rewrite rotate_period. reflexivity.
Qed.

Lemma evaluate_derivative_u_period (p : RevolutionPatch) (u v : R) :
  evaluate_derivative_u p u (v + 2 * PI) = evaluate_derivative_u p u v.
Proof.
  unfold evaluate_derivative_u.
  destruct (assert_valid_profile p) as [[]| |]; simpl; try reflexivity.
  destruct (profile p) as [c| |]; simpl; try reflexivity.
  destruct (CurveBase.evaluate_derivative c u) as [q| |]; simpl;
    try reflexivity.
  rewrite rotate_period. reflexivity.
Qed.

(** X14. Every forward query has period [2 pi] in the angle, on every
    patch and whatever the v-bounds are. *)
Theorem full_turn_period (p : RevolutionPatch) (u v : R) :
  evaluate p u (v + 2 * PI) = evaluate p u v /\
  evaluate_derivative_u p u (v + 2 * PI) = evaluate_derivative_u p u v /\
  evaluate_derivative_v p u (v + 2 * PI) = evaluate_derivative_v p u v /\
  evaluate_2nd_derivative_uu p u (v + 2 * PI)
    = evaluate_2nd_derivative_uu p u v /\
  evaluate_2nd_derivative_vv p u (v + 2 * PI)
    = evaluate_2nd_derivative_vv p u v /\
  evaluate_2nd_derivative_uv p u (v + 2 * PI)
    = evaluate_2nd_derivative_uv p u v.
Proof.
  split; [apply evaluate_period|].
  split; [apply evaluate_derivative_u_period|].
  unfold evaluate_derivative_v, evaluate_2nd_derivative_vv,
    evaluate_2nd_derivative_uv, evaluate_2nd_derivative_uu.
  rewrite evaluate_period, evaluate_derivative_u_period.
  repeat split.
  destruct (assert_valid_profile p) as [[]| |]; simpl; try reflexivity.
  destruct (profile p) as [c| |]; simpl; try reflexivity.
  destruct (CurveBase.evaluate_2nd_derivative c u) as [q| |]; simpl;
    try reflexivity.
  rewrite rotate_period. reflexivity.
Qed.

(** X15. With a unit axis the point [evaluate(u, v)] stays on a circle
    about the axis: its distance from the location and its height along
    the axis are those of the profile point, for every angle [v]. *)
Theorem evaluate_on_circle
        (p : RevolutionPatch) (c : ProfileType) (u v : R) (q : Point) :
  m_profile p = Some c ->
  norm (row2 (m_frame p)) = 1 ->
  CurveBase.evaluate c u = Ret q ->
  exists pt,
    evaluate p u v = Ret pt /\
    norm (pt - m_location p) = norm (q - m_location p) /\
    dot (pt - m_location p) (row2 (m_frame p))
      = dot (q - m_location p) (row2 (m_frame p)).
Proof.
  intros Hp Hunit Hq.
  eexists. split; [apply (evaluate_value p c u v q Hp Hq)|].
  rewrite add3_sub3_cancel. split.
  - unfold norm. f_equal.
    apply (squaredNorm_rotate (mkAngleAxis v (row2 (m_frame p)))).
    simpl. apply norm_unit, Hunit.
  - apply (dot_rotate_axis (mkAngleAxis v (row2 (m_frame p)))).
    simpl. apply norm_unit, Hunit.
Qed.

Lemma evaluate_derivative_v_value (p : RevolutionPatch) (u v : R) (pt : Point) :
  evaluate p u v = Ret pt ->
  evaluate_derivative_v p u v =
  (let d := cross (row2 (m_frame p)) (pt - m_location p) in
   if Rgtb (norm d) TOL10
   then Ret (muls3 (normalized d)
               (norm ((pt - m_location p)
                      - smul3 (dot (pt - m_location p) (row2 (m_frame p)))
                              (row2 (m_frame p)))%v3))
   else Ret d).
Proof.
  intros He.
  assert (Ha : assert_valid_profile p = Ret tt).
  { unfold evaluate in He.
    destruct (assert_valid_profile p) as [[]| |]; simpl in He;
      try discriminate. reflexivity. }
  unfold evaluate_derivative_v. rewrite Ha, He. reflexivity.
Qed.

Lemma dot_cross_right (a b : Vector3) : dot (cross a b) b = 0.
Proof. unfold dot, cross. simpl. ring. Qed.

(** X16. Where [evaluate] returns a point, [evaluate_derivative_v] returns
    a vector orthogonal both to the axis and to the vector from the
    location to that point, whatever the axis is; on the rescaling branch
    its length is exactly the radius the code computes. *)
Theorem evaluate_derivative_v_tangent
        (p : RevolutionPatch) (c : ProfileType) (u v : R) (q : Point) :
  m_profile p = Some c ->
  CurveBase.evaluate c u = Ret q ->
  exists pt dv,
    evaluate p u v = Ret pt /\
    evaluate_derivative_v p u v = Ret dv /\
    dot dv (row2 (m_frame p)) = 0 /\
    dot dv (pt - m_location p) = 0 /\
    (TOL10 < norm (cross (row2 (m_frame p)) (pt - m_location p)) ->
     norm dv =
     norm ((pt - m_location p)
           - smul3 (dot (pt - m_location p) (row2 (m_frame p)))
                   (row2 (m_frame p)))%v3).
Proof.
  intros Hp Hq.
  pose proof (evaluate_value p c u v q Hp Hq) as He.
  pose proof (evaluate_derivative_v_value p u v _ He) as Hd.
  cbv zeta in Hd.
  eexists. unfold Rgtb in Hd.
  destruct (Rlt_dec TOL10 _) as [Hn|Hn] in Hd.
  - assert (Hpos : 0 < norm (cross (row2 (m_frame p))
                     (m_location p
                      + rotate (mkAngleAxis v (row2 (m_frame p)))
                               (q - m_location p) - m_location p)%v3))
      by (pose proof TOL10_pos; lra).
    rewrite normalized_unfold in Hd by exact Hpos.
    eexists. split; [exact He|]. split; [exact Hd|].
    split; [|split].
    + rewrite dot_rescaled, dot_cross_left. ring.
    + rewrite dot_rescaled, dot_cross_right. ring.
    + intros _. apply norm_rescaled; [exact Hpos|apply norm_nonneg].
  - eexists. split; [exact He|]. split; [exact Hd|].
    split; [apply dot_cross_left|]. split; [apply dot_cross_right|].
    intros Hgt. contradiction.
Qed.

(** X17. With a unit axis the v-derivative is the cross product
    [axis x (point - location)] on both branches, and its length is the
    distance of the profile point from the axis line, the same for every
    angle [v]. *)
Theorem evaluate_derivative_v_unit_axis
        (p : RevolutionPatch) (c : ProfileType) (u v : R) (q : Point) :
  m_profile p = Some c ->
  norm (row2 (m_frame p)) = 1 ->
  CurveBase.evaluate c u = Ret q ->
  exists pt,
    evaluate p u v = Ret pt /\
    evaluate_derivative_v p u v =
      Ret (cross (row2 (m_frame p)) (pt - m_location p)) /\
    norm (cross (row2 (m_frame p)) (pt - m_location p)) =
    norm ((q - m_location p)
          - smul3 (dot (q - m_location p) (row2 (m_frame p)))
                  (row2 (m_frame p)))%v3.
Proof.
  intros Hp Hunit Hq.
  pose proof (evaluate_value p c u v q Hp Hq) as He.
  eexists. split; [exact He|].
  split; [apply evaluate_derivative_v_cross; assumption|].
  rewrite add3_sub3_cancel.
  unfold norm. f_equal.
  rewrite squaredNorm_cross, squaredNorm_rejection, (norm_unit _ Hunit).
  rewrite (squaredNorm_rotate (mkAngleAxis v (row2 (m_frame p))))
    by (simpl; apply norm_unit, Hunit).
  rewrite (dot_rotate_axis (mkAngleAxis v (row2 (m_frame p))))
    by (simpl; apply norm_unit, Hunit).
  simpl. ring.
Qed.

(** X18. With a unit axis the second derivative in [v] is the axis crossed
    with the first derivative in [v]; it is orthogonal to the axis. *)
Theorem evaluate_2nd_derivative_vv_unit_axis
        (p : RevolutionPatch) (c : ProfileType) (u v : R) (q : Point) :
  m_profile p = Some c ->
  norm (row2 (m_frame p)) = 1 ->
  CurveBase.evaluate c u = Ret q ->
  exists dv dvv,
    evaluate_derivative_v p u v = Ret dv /\
    evaluate_2nd_derivative_vv p u v = Ret dvv /\
    dvv = cross (row2 (m_frame p)) dv /\
    dot dvv (row2 (m_frame p)) = 0.
Proof.
  intros Hp Hunit Hq.
  pose proof (evaluate_value p c u v q Hp Hq) as He.
  destruct (profile_present p c Hp) as [Ha _].
  eexists. eexists.
  split; [apply (evaluate_derivative_v_cross p u v _ Hunit He)|].
  split; [unfold evaluate_2nd_derivative_vv; rewrite Ha, He; reflexivity|].
  cbv zeta.
  assert (E : forall w a : Vector3, squaredNorm a = 1 ->
                (- w + smul3 (dot w a) a)%v3 = cross a (cross a w)).
  { intros w a H1. rewrite cross_cross, H1.
    destruct w, a. unfold add3, sub3, neg3, smul3. simpl. f_equal; ring. }
  rewrite E by (apply norm_unit, Hunit).
  split; [reflexivity|apply dot_cross_left].
Qed.

(** *** [initialize] *)

Lemma assert_ret (b : bool) : assert b = Ret tt -> b = true.
Proof. destruct b; [reflexivity|discriminate]. Qed.

Lemma Rltb_spec (a b : R) : Rltb a b = true <-> a < b.
Proof.
  unfold Rltb. destruct (Rlt_dec a b); split; auto; discriminate.
Qed.

Lemma Rgtb_spec (a b : R) : Rgtb a b = true <-> b < a.
Proof.
  unfold Rgtb. destruct (Rlt_dec b a); split; auto; discriminate.
Qed.



Ltac step_assert :=
  match goal with
  | |- context [assert ?b] =>
      let E := fresh "E" in
      destruct b eqn:E; cbn [assert bind];
      [|let X := fresh in intros X; discriminate X]
  end.

Lemma initialize_checked (p p' : RevolutionPatch) :
  initialize p = (p', Ret tt) -> ready p.
Proof.
  unfold initialize, assert_valid_profile, profile. cbv zeta.
  destruct (m_profile p) as [c|] eqn:Hp; cbn [bind];
    [|intros X; discriminate X].
  do 8 step_assert.
  intros _. unfold ready. rewrite Hp.
  repeat match goal with
         | H : Rltb _ _ = true |- _ => apply Rltb_spec in H
         | H : Rgtb _ _ = true |- _ => apply Rgtb_spec in H
         end.
  repeat split; try assumption. discriminate.
Qed.

Lemma initialize_when_ready (p : RevolutionPatch) (c : ProfileType) :
  m_profile p = Some c -> ready p ->
  initialize p =
  (if Rgtb (m_v_upper p - m_v_lower p) (2 * M_PI - TOL10)
   then set_periodic_v (set_periodic_u p (CurveBase.get_periodic c)) true
   else set_periodic_u p (CurveBase.get_periodic c),
   Ret tt).
Proof.
  intros Hp (_ & H0 & H1 & H2 & H01 & H12 & H20 & Hu & Hv).
  apply initialize_returns; assumption.
Qed.

(** X19. [initialize] returns exactly on the patches that have a profile,
    a frame whose rows are unit and pairwise orthogonal within the
    tolerance, and strictly ordered u- and v-bounds. *)
Theorem initialize_returns_iff (p : RevolutionPatch) :
  snd (initialize p) = Ret tt <-> ready p.
Proof.
  split.
  - intros H. apply (initialize_checked p (fst (initialize p))).
    rewrite <- H. apply surjective_pairing.
  - intros Hr. destruct (m_profile p) as [c|] eqn:Hp.
    + rewrite (initialize_when_ready p c Hp Hr). reflexivity.
    + destruct Hr as [Hn _]. contradiction.
Qed.

(** X20. [initialize] writes nothing but the two periodicity flags:
    location, frame, profile, the four bounds and both degrees are kept;
    when it does not return, the patch is not changed at all; when it
    returns, the u-flag is the profile's [get_periodic()]. *)
Theorem initialize_writes_only_flags
        (p p' : RevolutionPatch) (o : outcome unit) :
  initialize p = (p', o) ->
  (m_location p' = m_location p /\ m_frame p' = m_frame p /\
   m_profile p' = m_profile p /\
   m_u_lower p' = m_u_lower p /\ m_u_upper p' = m_u_upper p /\
   m_v_lower p' = m_v_lower p /\ m_v_upper p' = m_v_upper p /\
   get_degree_u (base p') = get_degree_u (base p) /\
   get_degree_v (base p') = get_degree_v (base p)) /\
  (o <> Ret tt -> p' = p) /\
  (o = Ret tt ->
   exists c, m_profile p = Some c /\
             get_periodic_u (base p') = CurveBase.get_periodic c).
Proof.
  intros Hi. split; [|split].
  - revert Hi. unfold initialize. cbv zeta.
    match goal with
    | |- context [match ?chk with Ret _ => _ | Throw _ => _
                                | AssertFail => _ end] =>
        destruct chk as [c| |]
    end.
    + destruct (Rgtb _ _); intros E; inversion E; subst; simpl;
        repeat split.
    + intros E; inversion E; subst; repeat split.
    + intros E; inversion E; subst; repeat split.
  - revert Hi. unfold initialize. cbv zeta.
    match goal with
    | |- context [match ?chk with Ret _ => _ | Throw _ => _
                                | AssertFail => _ end] =>
        destruct chk as [c| |]
    end.
    + destruct (Rgtb _ _); intros E; inversion E; subst;
        intros N; contradiction N; reflexivity.
    + intros E; inversion E; reflexivity.
    + intros E; inversion E; reflexivity.
  - intros ->. pose proof (initialize_checked p p' Hi) as Hr.
    destruct (m_profile p) as [c|] eqn:Hp;
      [|destruct Hr as [Hn _]; contradiction].
    exists c. split; [reflexivity|].
    rewrite (initialize_when_ready p c Hp Hr) in Hi.
    destruct (Rgtb _ _); inversion Hi; subst; reflexivity.
Qed.

(** X21. Running [initialize] again on what it returned changes nothing. *)
Theorem patch_initialize_idempotent (p p' : RevolutionPatch) :
  initialize p = (p', Ret tt) -> initialize p' = (p', Ret tt).
Proof.
  intros Hi. pose proof (initialize_checked p p' Hi) as Hr.
  destruct (m_profile p) as [c|] eqn:Hp;
    [|destruct Hr as [Hn _]; contradiction].
  rewrite (initialize_when_ready p c Hp Hr) in Hi.
  assert (Hp' : m_profile p' = Some c)
    by (destruct (Rgtb _ _); inversion Hi; subst; exact Hp).
  assert (Hr' : ready p').
  { unfold ready in *. rewrite Hp'.
    destruct (Rgtb _ _); inversion Hi; subst; simpl;
      (split; [discriminate|apply Hr]). }
  rewrite (initialize_when_ready p' c Hp' Hr').
  destruct p as [[du dv pu pv] l f pr ul uu vl vu].
  simpl in *. destruct (Rgtb (vu - vl) (2 * M_PI - TOL10)) eqn:Hs;
    inversion Hi; subst; simpl; rewrite Hs; reflexivity.
Qed.

(** X22. A default-constructed patch that is given any profile passes
    [initialize]: afterwards it is v-periodic (the default v-range is a
    full turn), its u-flag is the profile's, and both degrees are 2. *)
Theorem default_patch_initializes (b0 : PatchBase) (c : ProfileType) :
  exists p',
    initialize (set_profile (RevolutionPatch_ctor b0) (Some c)) = (p', Ret tt) /\
    get_periodic_v (base p') = true /\
    get_periodic_u (base p') = CurveBase.get_periodic c /\
    get_degree_u (base p') = 2%Z /\ get_degree_v (base p') = 2%Z.
Proof.
  exists (set_periodic_v
            (set_periodic_u (set_profile (RevolutionPatch_ctor b0) (Some c))
                            (CurveBase.get_periodic c)) true).
  split; [|repeat split].
  rewrite (initialize_returns _ c).
  - rewrite Rgtb_true; [reflexivity|].
    simpl. pose proof TOL10_pos. lra.
  - reflexivity.
  - apply near_zero_lt_TOL10; unfold squaredNorm, dot; simpl; ring.
  - apply near_zero_lt_TOL10; unfold squaredNorm, dot; simpl; ring.
  - apply near_zero_lt_TOL10; unfold squaredNorm, dot; simpl; ring.
  - apply near_zero_lt_TOL10; unfold squaredNorm, dot; simpl; ring.
  - apply near_zero_lt_TOL10; unfold squaredNorm, dot; simpl; ring.
  - apply near_zero_lt_TOL10; unfold squaredNorm, dot; simpl; ring.
  - simpl. lra.
  - simpl. unfold M_PI. pose proof PI_RGT_0. lra.
Qed.

(** *** [inverse_evaluate] *)

Section Inversion.

Context {S : PatchSolver}.


(** Without a profile [inverse_evaluate] throws
    [invalid_setting_error] before either phase of the inversion is
    started, whatever they would do. *)
Theorem inverse_evaluate_null_profile
        (p : RevolutionPatch) (pt : Point) (min_u max_u min_v max_v : R) :
  m_profile p = None ->
  inverse_evaluate p pt min_u max_u min_v max_v =
  Throw (invalid_setting_error "Profile not set!").
Proof.
  intros Hp. unfold inverse_evaluate, assert_valid_profile.
  rewrite Hp. reflexivity.
Qed.

End Inversion.

End Patch_behaviour.

(** *** The further patch properties on the sample patches *)

Lemma null_profile_queries_witness :
  RevolutionPatch.evaluate Sample.bare_patch (1 / 2) 0 =
    Throw (invalid_setting_error "Profile not set!") /\
  RevolutionPatch.initialize Sample.bare_patch =
    (Sample.bare_patch, Throw (invalid_setting_error "Profile not set!")).
Proof.
  destruct (null_profile_queries Sample.bare_patch (1 / 2) 0 eq_refl)
    as (He & _ & _ & _ & _ & _ & Hi).
  split; [exact He | exact Hi].
Defined.

Lemma zero_angle_is_profile_witness :
  RevolutionPatch.evaluate Sample.line_patch (1 / 2) 0
  = Ret (vec3 1 (1 / 2) 0).
Proof.
  exact (proj1 (zero_angle_is_profile Sample.line_patch Sample.line_profile
                  (1 / 2) eq_refl)).
Defined.

Lemma evaluate_on_circle_witness :
  exists pt,
    RevolutionPatch.evaluate Sample.line_patch (1 / 2) (PI / 2) = Ret pt /\
    norm (pt - Zero3) = norm (vec3 1 (1 / 2) 0 - Zero3) /\
    dot (pt - Zero3) (vec3 0 0 1) = dot (vec3 1 (1 / 2) 0 - Zero3) (vec3 0 0 1).
Proof.
  exact (evaluate_on_circle Sample.line_patch Sample.line_profile
           (1 / 2) (PI / 2) (vec3 1 (1 / 2) 0) eq_refl norm_ez eq_refl).
Defined.

Lemma evaluate_derivative_v_tangent_witness :
  exists pt dv,
    RevolutionPatch.evaluate Sample.line_patch (1 / 2) (PI / 2) = Ret pt /\
    RevolutionPatch.evaluate_derivative_v Sample.line_patch (1 / 2) (PI / 2)
      = Ret dv /\
    dot dv (vec3 0 0 1) = 0 /\
    dot dv (pt - Zero3) = 0.
Proof.
  destruct (evaluate_derivative_v_tangent Sample.line_patch Sample.line_profile
              (1 / 2) (PI / 2) (vec3 1 (1 / 2) 0) eq_refl eq_refl)
    as (pt & dv & He & Hd & Ha & Hw & _).
  exists pt, dv. repeat split; assumption.
Defined.

Lemma evaluate_derivative_v_unit_axis_witness :
  exists pt,
    RevolutionPatch.evaluate Sample.line_patch (1 / 2) (PI / 2) = Ret pt /\
    RevolutionPatch.evaluate_derivative_v Sample.line_patch (1 / 2) (PI / 2)
      = Ret (cross (vec3 0 0 1) (pt - Zero3)).
Proof.
  destruct (evaluate_derivative_v_unit_axis Sample.line_patch
              Sample.line_profile (1 / 2) (PI / 2) (vec3 1 (1 / 2) 0)
              eq_refl norm_ez eq_refl)
    as (pt & He & Hd & _).
  exists pt. split; assumption.
Defined.

Lemma evaluate_2nd_derivative_vv_unit_axis_witness :
  exists dv dvv,
    RevolutionPatch.evaluate_derivative_v Sample.line_patch (1 / 2) (PI / 2)
      = Ret dv /\
    RevolutionPatch.evaluate_2nd_derivative_vv Sample.line_patch
      (1 / 2) (PI / 2) = Ret dvv /\
    dvv = cross (vec3 0 0 1) dv.
Proof.
  destruct (evaluate_2nd_derivative_vv_unit_axis Sample.line_patch
              Sample.line_profile (1 / 2) (PI / 2) (vec3 1 (1 / 2) 0)
              eq_refl norm_ez eq_refl)
    as (dv & dvv & Hd & Hdd & E & _).
  exists dv, dvv. repeat split; assumption.
Defined.

Lemma initialize_writes_only_flags_witness :
  RevolutionPatch.m_frame Sample.initialized_line_patch
    = RevolutionPatch.m_frame Sample.line_patch /\
  RevolutionPatch.m_v_upper Sample.initialized_line_patch
    = RevolutionPatch.m_v_upper Sample.line_patch.
Proof.
  destruct (initialize_writes_only_flags Sample.line_patch
              Sample.initialized_line_patch (Ret tt) initialize_line_patch)
    as ((_ & Hf & _ & _ & _ & _ & Hv & _) & _).
  split; assumption.
Defined.

Lemma patch_initialize_idempotent_witness :
  RevolutionPatch.initialize Sample.initialized_line_patch
  = (Sample.initialized_line_patch, Ret tt).
Proof.
  exact (patch_initialize_idempotent Sample.line_patch
           Sample.initialized_line_patch initialize_line_patch).
Defined.



Lemma inverse_evaluate_null_profile_witness :
  RevolutionPatch.inverse_evaluate (S := Sample.corner_solver)
    Sample.bare_patch Zero3 0 1 0 1
  = Throw (invalid_setting_error "Profile not set!").
Proof.
  exact (inverse_evaluate_null_profile (S := Sample.corner_solver)
           Sample.bare_patch Zero3 0 1 0 1 eq_refl).
Defined.

Lemma stale_curve_never_evaluates_witness :
  ~ returns (NURBS.evaluate (I := Sample.planar_segment)
               Sample.raw_curve (1 / 2)) /\
  ~ returns (NURBS.evaluate_derivative (I := Sample.planar_segment)
               Sample.raw_curve (1 / 2)).
Proof.
  apply (stale_curve_never_evaluates (I := Sample.planar_segment)
           Sample.raw_curve (1 / 2)).
  left. simpl. discriminate.
Defined.
